(** * Flood-demo kiosk: simulation, scoring and cross-view synchronisation

    A shallow embedding of the engine behind the flood-warning demo:

    - [Control]      the manually driven surface ([app/routes/control.tsx]):
                     the closed-form ETA predictor and the "Demo Mode" script;
    - [ControlLite]  the scripted surface ([app/routes/control-lite.tsx]):
                     likelihood smoothing, stage classification, the windowed
                     countdown and the demo phase machine;
    - [SensorBus]    the publish/subscribe transport ([utils/sensorBus]);
    - [SkyOv]        the passive sky overlay's snapshot sanitiser.

    JavaScript numbers are modelled by exact arithmetic: rationals [Q] where
    the code only adds, multiplies, compares and rounds, reals [R] where it
    takes a logarithm.  Rounding error of IEEE doubles is not modelled.

    React is modelled by explicit state passing.  A handler or timer callback
    is a function on the committed state.  An effect is a function of the
    values its closure captured at render time (the snapshot) and of the
    pending state it writes to; refs and browser timers are read live. *)

From Stdlib Require Import ZArith QArith Qround Qabs Qminmax Qpower Reals Psatz Lia Bool List String.
From stdpp Require Import gmap strings.
Import ListNotations.

(* ================================================================== *)
(** * The manually driven surface, [control.tsx]                        *)
(* ================================================================== *)

Module Control.

(** A JavaScript number as far as [etaToFloodSeconds] can return one: a
    finite value or [Number.POSITIVE_INFINITY]. *)
Inductive number : Type :=
| Finite (r : R)
| POSITIVE_INFINITY.

Definition TICK_MS : R := 200.
Definition ALPHA_level : R := 5 / 100.
Definition FLOOD_LEVEL : R := 1.

(** [function etaToFloodSeconds(currentLevel, targetLevel)]; [Math.log] is
    the natural logarithm [ln]. *)
Definition etaToFloodSeconds (currentLevel targetLevel : R) : number :=
  let deltaFlood := (targetLevel - FLOOD_LEVEL)%R in
  if Rle_dec deltaFlood 0 then POSITIVE_INFINITY
  else
    let d0 := (targetLevel - currentLevel)%R in
    if Rle_dec d0 deltaFlood then Finite 0
    else
      let a := ALPHA_level in
      let n := (ln (deltaFlood / d0) / ln (1 - a))%R in
      Finite (Rmax 0 (n * (TICK_MS / 1000))).

(** [status]: on this surface the label is read off the river level and
    the rain intensity; no likelihood score enters it. *)
Definition Rgeb (a b : R) : bool := if Rle_dec b a then true else false.

Definition status (level : R) (rain : Z) : string :=
  if Rgeb level FLOOD_LEVEL || (90 <=? rain)%Z then "DANGER"
  else if Rgeb level (85 / 100) || (75 <=? rain)%Z then "WARNING"
  else if Rgeb level (70 / 100) || (50 <=? rain)%Z then "WATCH"
  else "NORMAL".

(** ** Demo Mode ("PM mode") script *)

Inductive PMState : Type := idle | rampingUp | waitingFlood | holding | rampingDown.

Inductive ScriptName : Type := PM_MODE | STOP.
Inductive DisplayState : Type := NORMAL | RAIN.

(** [type FloodAction] of [lib/types]. *)
Inductive FloodAction : Type :=
| SET_RAIN_LEVEL (value : Z)
| TRIGGER_STATE (state : DisplayState)
| SCRIPT (name : ScriptName).

(** What a live browser timer will run when it fires. *)
Inductive Timer : Type := RampUpInterval | HoldTimeout | RampDownInterval.

(** The part of the component the script touches: the [rain] and [pm]
    state variables, the three refs, the browser's table of live timers
    with its next free handle, and the script messages posted with [send]. *)
Record Demo : Type := mkDemo {
  rain : Z;
  pm : PMState;
  rampIntervalRef : option positive;
  holdTimeoutRef : option positive;
  didStartHoldRef : bool;
  timers : gmap positive Timer;
  nextTimer : positive;
  sent : list FloodAction
}.

Definition initial : Demo :=
  mkDemo 0 idle None None false ∅ 1%positive [].

Definition setRain (v : Z) (s : Demo) : Demo :=
  mkDemo v (pm s) (rampIntervalRef s) (holdTimeoutRef s) (didStartHoldRef s)
         (timers s) (nextTimer s) (sent s).
Definition setPm (p : PMState) (s : Demo) : Demo :=
  mkDemo (rain s) p (rampIntervalRef s) (holdTimeoutRef s) (didStartHoldRef s)
         (timers s) (nextTimer s) (sent s).
Definition setRampIntervalRef (h : option positive) (s : Demo) : Demo :=
  mkDemo (rain s) (pm s) h (holdTimeoutRef s) (didStartHoldRef s)
         (timers s) (nextTimer s) (sent s).
Definition setHoldTimeoutRef (h : option positive) (s : Demo) : Demo :=
  mkDemo (rain s) (pm s) (rampIntervalRef s) h (didStartHoldRef s)
         (timers s) (nextTimer s) (sent s).
Definition setDidStartHoldRef (b : bool) (s : Demo) : Demo :=
  mkDemo (rain s) (pm s) (rampIntervalRef s) (holdTimeoutRef s) b
         (timers s) (nextTimer s) (sent s).
Definition send (a : FloodAction) (s : Demo) : Demo :=
  mkDemo (rain s) (pm s) (rampIntervalRef s) (holdTimeoutRef s) (didStartHoldRef s)
         (timers s) (nextTimer s) (sent s ++ [a]).

(** [window.setInterval] / [window.setTimeout]: a fresh handle enters the
    table.  [window.clearInterval] / [window.clearTimeout]: it leaves. *)
Definition startTimer (k : Timer) (s : Demo) : positive * Demo :=
  (nextTimer s,
   mkDemo (rain s) (pm s) (rampIntervalRef s) (holdTimeoutRef s) (didStartHoldRef s)
          (<[nextTimer s := k]> (timers s)) (Pos.succ (nextTimer s)) (sent s)).
Definition clearTimer (h : positive) (s : Demo) : Demo :=
  mkDemo (rain s) (pm s) (rampIntervalRef s) (holdTimeoutRef s) (didStartHoldRef s)
         (delete h (timers s)) (nextTimer s) (sent s).

Definition clearRamp (s : Demo) : Demo :=
  match rampIntervalRef s with
  | Some h => setRampIntervalRef None (clearTimer h s)
  | None => s
  end.

Definition clearHold (s : Demo) : Demo :=
  match holdTimeoutRef s with
  | Some h => setHoldTimeoutRef None (clearTimer h s)
  | None => s
  end.

Definition resetPM (s : Demo) : Demo :=
  setPm idle (setDidStartHoldRef false (clearHold (clearRamp s))).

(** [const startPMMode = () => { ... }], the "Demo Mode" button (always
    enabled). *)
Definition startPMMode (s : Demo) : Demo :=
  let s := resetPM s in
  let s := setRain 0 s in
  let s := setPm rampingUp s in
  let s := send (SCRIPT PM_MODE) s in
  let '(h, s) := startTimer RampUpInterval s in
  setRampIntervalRef (Some h) s.

(** Callback of the interval started by [startPMMode]. *)
Definition rampUpTick (s : Demo) : Demo :=
  let next := Z.min 100 (rain s + 10) in
  let s := if (100 <=? next)%Z then setPm waitingFlood (clearRamp s) else s in
  setRain next s.

(** Callback of the interval started when the hold ends. *)
Definition rampDownTick (s : Demo) : Demo :=
  let next := Z.max 0 (rain s - 5) in
  let s :=
    if (next <=? 0)%Z
    then send (SCRIPT STOP) (setPm idle (setDidStartHoldRef false (clearRamp s)))
    else s in
  setRain next s.

(** Callback of the 20 s hold timeout; the browser has already dropped the
    fired handle [h] from its table. *)
Definition holdTimeoutFired (h : positive) (s : Demo) : Demo :=
  let s := clearTimer h s in
  let s := setPm rampingDown s in
  let s := clearRamp s in
  let '(h', s) := startTimer RampDownInterval s in
  setRampIntervalRef (Some h') s.

(** The effect on [[pm, etaSec]] that starts the hold. *)
Definition holdEffect (etaSec : number) (s : Demo) : Demo :=
  match pm s with
  | waitingFlood =>
      match etaSec with
      | POSITIVE_INFINITY => s
      | Finite e =>
          if Rlt_dec 0 e then s
          else if didStartHoldRef s then s
          else
            let s := setDidStartHoldRef true s in
            let s := setPm holding s in
            let s := setRain 100 s in
            let s := clearHold s in
            let '(h, s) := startTimer HoldTimeout s in
            setHoldTimeoutRef (Some h) s
      end
  | _ => s
  end.

(** One event of the script: a click, the slider, a timer firing, the hold
    effect running. *)
Inductive step : Demo -> Demo -> Prop :=
| step_start s : step s (startPMMode s)
| step_slider v s : step s (setRain v s)
| step_rampUp h s :
    timers s !! h = Some RampUpInterval -> step s (rampUpTick s)
| step_rampDown h s :
    timers s !! h = Some RampDownInterval -> step s (rampDownTick s)
| step_holdFired h s :
    timers s !! h = Some HoldTimeout -> step s (holdTimeoutFired h s)
| step_holdEffect e s : step s (holdEffect e s).

Inductive reachable : Demo -> Prop :=
| reach_initial : reachable initial
| reach_step s s' : reachable s -> step s s' -> reachable s'.

(** Every live timer is held by one of the two refs. *)
Definition owned (s : Demo) : Prop :=
  forall h k, timers s !! h = Some k ->
              rampIntervalRef s = Some h \/ holdTimeoutRef s = Some h.

(** ** The river level between renders *)

Definition clamp (v a b : R) : R := Rmin b (Rmax a v).

(** [jitter(mag)] with [Math.random() = r]. *)
Definition jitter (r mag : R) : R := ((r - 1 / 2) * mag)%R.



(** ** The prediction banner *)

Definition BASE_flow : R := 60 / 100.
Definition GAIN_flowRise : R := 140 / 100.

(** [Math.round] on a finite number. *)
Definition Math_round (x : R) : Z := Zfloor (x + 1 / 2).

(** [likelihood], from [etaSec], [level], [flow] and [rain]. *)
Definition likelihood (etaSec : number) (level flow : R) (rain : Z) : Z :=
  let timeScore :=
    match etaSec with
    | Finite e => clamp (1 - e / 60) 0 1
    | POSITIVE_INFINITY => 0%R
    end in
  let levelScore := clamp (level / FLOOD_LEVEL) 0 1 in
  let rainScore := (IZR rain / 100)%R in
  let flowScore := clamp ((flow - BASE_flow) / GAIN_flowRise) 0 1 in
  Math_round (100 * (40 / 100 * timeScore + 25 / 100 * levelScore
                     + 20 / 100 * rainScore + 15 / 100 * flowScore)).

(** How grave a status label is. *)
Definition severity (label : string) : nat :=
  if String.eqb label "DANGER" then 3
  else if String.eqb label "WARNING" then 2
  else if String.eqb label "WATCH" then 1
  else 0.

(** ** Driving the displays *)

Definition RAIN_THRESHOLD : Z := 70.

(** [wasRainingRef] and what the rain effect has posted with [send]. *)
Record Broadcast : Type := mkBroadcast {
  wasRainingRef : bool;
  outbox : list FloodAction
}.

(** The effect on [[rain]]. *)
Definition rainEffect (rain : Z) (b : Broadcast) : Broadcast :=
  let out := outbox b ++ [SET_RAIN_LEVEL rain] in
  let nowRaining := (RAIN_THRESHOLD <=? rain)%Z in
  if Bool.eqb nowRaining (wasRainingRef b) then mkBroadcast (wasRainingRef b) out
  else mkBroadcast nowRaining
                   (out ++ [TRIGGER_STATE (if nowRaining then RAIN else NORMAL)]).

(** The effect run once per value [rain] takes, in order. *)
Definition rainEffects (rains : list Z) (b : Broadcast) : Broadcast :=
  fold_left (fun acc r => rainEffect r acc) rains b.

(** The [TRIGGER_STATE] payloads among posted actions, in order. *)
Definition triggers (out : list FloodAction) : list DisplayState :=
  flat_map (fun a => match a with TRIGGER_STATE s => [s] | _ => [] end) out.

(** The script run on its own clock: [n] firings of the ramp interval. *)
Definition rampUpTicks (n : nat) (s : Demo) : Demo := Nat.iter n rampUpTick s.
Definition rampDownTicks (n : nat) (s : Demo) : Demo := Nat.iter n rampDownTick s.

End Control.

(* ================================================================== *)
(** * The scripted surface, [control-lite.tsx]                          *)
(* ================================================================== *)

Module ControlLite.

Local Open Scope Q_scope.

Inductive FloodStage : Type := normal | watch | warning | danger | subsiding.
Inductive StatusLabel : Type := NORMAL | WATCH | WARNING | DANGER | SUBSIDING.
Inductive SimPhase : Type := idle | rampUp | peakHold | rampDown.

Record Sensors : Type := mkSensors {
  airTemp : Q;
  humidity : Q;
  level : Q;
  flow : Q;
  pressure : Q;
  wind : Q;
  soil : Q;
  turbidity : Q;
  waterTemp : Q;
  upstreamLevel : Q;
  rainRate : Q;
  dischargeQ : Q
}.

(** ** Tunables *)

Definition TICK_MS : Q := 250.
Definition EMA_ALPHA : Q := 0.25.
Definition MAX_STEP : Q := 4.

Definition NORMAL_MAX : Z := 39.
Definition WATCH_MIN : Z := 40.
Definition WATCH_MAX : Z := 69.
Definition WARNING_MIN : Z := 70.
Definition WARNING_MAX : Z := 79.
Definition DANGER_MIN : Z := 80.

Definition COUNTDOWN_START_PCT : Q := 95.
Definition COUNTDOWN_START_S : Z := 20.
Definition PEAK_NOW_PCT : Q := 99.
Definition PEAK_HOLD_MS : Q := 15000.

Definition RAMP_UP_STEP : Q := 4.
Definition RAMP_DOWN_STEP : Q := 3.

Definition BASELINE_EPS : Q := 0.03.

Definition stageToStatusLabel (s : FloodStage) : StatusLabel :=
  match s with
  | normal => NORMAL
  | watch => WATCH
  | warning => WARNING
  | danger => DANGER
  | subsiding => SUBSIDING
  end.

(** ** Baselines and helpers *)

Definition BASE : Sensors :=
  mkSensors 31.0 70.0 1.20 0.80 1008.0 1.5 25.0 10.0 29.0 1.10 0.0 96.0.

Definition Qgeb (a b : Q) : bool := Qle_bool b a.
Definition Qltb (a b : Q) : bool := negb (Qle_bool b a).

Definition clamp01 (x : Q) : Q := Qmax 0 (Qmin 1 x).
Definition lerp (a b t : Q) : Q := a + (b - a) * t.
Definition approxEqual (a b epsAbs : Q) : bool := Qle_bool (Qabs (a - b)) epsAbs.

(** [Math.round]: the nearest integer, halves rounded up. *)
Definition Math_round (x : Q) : Z := Qfloor (x + 0.5).

Definition is_rampUp (p : SimPhase) : bool :=
  match p with rampUp => true | _ => false end.
Definition is_rampDown (p : SimPhase) : bool :=
  match p with rampDown => true | _ => false end.
Definition is_idle (p : SimPhase) : bool :=
  match p with idle => true | _ => false end.
Definition is_danger (s : FloodStage) : bool :=
  match s with danger => true | _ => false end.
Definition is_subsiding (s : FloodStage) : bool :=
  match s with subsiding => true | _ => false end.
Definition is_null {A : Type} (o : option A) : bool :=
  match o with None => true | Some _ => false end.

(** ** Component state *)

(** The [useState] variables: what a render sees and an effect's closure
    captures. *)
Record View : Type := mkView {
  phase : SimPhase;
  rain : Q;
  S_ : Sensors;
  lk : Q;
  stage : FloodStage;
  etaSeconds : option Z;
  etaNow : bool
}.

(** The [useRef] cells, shared and mutated in place. *)
Record Refs : Type := mkRefs {
  lkRef : Q;
  countdownTimerRef : option positive;
  peakHoldTimerRef : option positive;
  dangerAlertedRef : bool;
  rampUpSinceRef : option Q;
  dangerSinceRef : option Q
}.

Inductive Timer : Type := CountdownInterval | PeakHoldTimeout.

(** The browser's live timers and its next free handle. *)
Record Window : Type := mkWindow {
  timers : gmap positive Timer;
  nextTimer : positive
}.

Record World : Type := mkWorld {
  st : View;
  refs : Refs;
  win : Window
}.

Definition initial : World :=
  mkWorld (mkView idle 0 BASE 0 normal None false)
          (mkRefs 0 None None false None None)
          (mkWindow ∅ 1%positive).

Definition updView (f : View -> View) (w : World) : World :=
  mkWorld (f (st w)) (refs w) (win w).
Definition updRefs (f : Refs -> Refs) (w : World) : World :=
  mkWorld (st w) (f (refs w)) (win w).

Definition setPhase (p : SimPhase) : World -> World :=
  updView (fun v => mkView p (rain v) (S_ v) (lk v) (stage v) (etaSeconds v) (etaNow v)).
Definition setRain (r : Q) : World -> World :=
  updView (fun v => mkView (phase v) r (S_ v) (lk v) (stage v) (etaSeconds v) (etaNow v)).
Definition setS (s : Sensors) : World -> World :=
  updView (fun v => mkView (phase v) (rain v) s (lk v) (stage v) (etaSeconds v) (etaNow v)).
Definition setLk (x : Q) : World -> World :=
  updView (fun v => mkView (phase v) (rain v) (S_ v) x (stage v) (etaSeconds v) (etaNow v)).
Definition setStage (s : FloodStage) : World -> World :=
  updView (fun v => mkView (phase v) (rain v) (S_ v) (lk v) s (etaSeconds v) (etaNow v)).
Definition setEtaSeconds (e : option Z) : World -> World :=
  updView (fun v => mkView (phase v) (rain v) (S_ v) (lk v) (stage v) e (etaNow v)).
Definition setEtaNow (b : bool) : World -> World :=
  updView (fun v => mkView (phase v) (rain v) (S_ v) (lk v) (stage v) (etaSeconds v) b).

Definition setLkRef (x : Q) : World -> World :=
  updRefs (fun r => mkRefs x (countdownTimerRef r) (peakHoldTimerRef r)
                           (dangerAlertedRef r) (rampUpSinceRef r) (dangerSinceRef r)).
Definition setCountdownTimerRef (h : option positive) : World -> World :=
  updRefs (fun r => mkRefs (lkRef r) h (peakHoldTimerRef r)
                           (dangerAlertedRef r) (rampUpSinceRef r) (dangerSinceRef r)).
Definition setPeakHoldTimerRef (h : option positive) : World -> World :=
  updRefs (fun r => mkRefs (lkRef r) (countdownTimerRef r) h
                           (dangerAlertedRef r) (rampUpSinceRef r) (dangerSinceRef r)).
Definition setDangerAlertedRef (b : bool) : World -> World :=
  updRefs (fun r => mkRefs (lkRef r) (countdownTimerRef r) (peakHoldTimerRef r)
                           b (rampUpSinceRef r) (dangerSinceRef r)).
Definition setRampUpSinceRef (t : option Q) : World -> World :=
  updRefs (fun r => mkRefs (lkRef r) (countdownTimerRef r) (peakHoldTimerRef r)
                           (dangerAlertedRef r) t (dangerSinceRef r)).
Definition setDangerSinceRef (t : option Q) : World -> World :=
  updRefs (fun r => mkRefs (lkRef r) (countdownTimerRef r) (peakHoldTimerRef r)
                           (dangerAlertedRef r) (rampUpSinceRef r) t).

(** [window.setInterval] / [window.setTimeout] and their [clear]. *)
Definition startTimer (k : Timer) (w : World) : positive * World :=
  (nextTimer (win w),
   mkWorld (st w) (refs w)
           (mkWindow (<[nextTimer (win w) := k]> (timers (win w)))
                     (Pos.succ (nextTimer (win w))))).
Definition clearTimer (h : positive) (w : World) : World :=
  mkWorld (st w) (refs w) (mkWindow (delete h (timers (win w))) (nextTimer (win w))).

(** ** Likelihood *)

(** [rawLikelihood], the [useMemo] over [S]. *)
Definition rawLikelihood (s : Sensors) : Q :=
  let fLevel := clamp01 ((level s - level BASE) / 0.75) in
  let fFlow := clamp01 ((flow s - flow BASE) / 0.9) in
  let fUp := clamp01 ((upstreamLevel s - upstreamLevel BASE) / 0.8) in
  let fTurb := clamp01 ((turbidity s - turbidity BASE) / 85) in
  let fRain := clamp01 ((rainRate s - rainRate BASE) / 120) in
  let fPdrop := clamp01 ((pressure BASE - pressure s) / 9) in
  let score :=
    0.27 * fLevel + 0.20 * fFlow + 0.20 * fUp + 0.14 * fTurb + 0.14 * fRain
    + 0.05 * fPdrop in
  clamp01 score * 100.

(** The updater passed to [setLk]: smoothing, then the step clamp. *)
Definition smooth (prev raw : Q) : Q :=
  let ema := prev + EMA_ALPHA * (raw - prev) in
  Qmax (prev - MAX_STEP) (Qmin (prev + MAX_STEP) ema).


(** Effect on [[rawLikelihood]].  The updater also stores into [lkRef]. *)
Definition smoothEffect (snap : View) (w : World) : World :=
  let clamped := smooth (lk (st w)) (rawLikelihood (S_ snap)) in
  setLk clamped (setLkRef clamped w).

(** ** Stage *)

(** The [close] test of the stage effect. *)
Definition close (s : Sensors) : bool :=
  approxEqual (airTemp s) (airTemp BASE) (Qabs (airTemp BASE) * BASELINE_EPS) &&
  approxEqual (humidity s) (humidity BASE) (Qabs (humidity BASE) * BASELINE_EPS) &&
  approxEqual (level s) (level BASE) (Qabs (level BASE) * BASELINE_EPS) &&
  approxEqual (flow s) (flow BASE) (Qabs (flow BASE) * BASELINE_EPS) &&
  approxEqual (pressure s) (pressure BASE) (Qabs (pressure BASE) * BASELINE_EPS) &&
  approxEqual (wind s) (wind BASE) (Qabs (wind BASE) * BASELINE_EPS) &&
  approxEqual (soil s) (soil BASE) (Qabs (soil BASE) * BASELINE_EPS) &&
  approxEqual (turbidity s) (turbidity BASE) (Qabs (turbidity BASE) * BASELINE_EPS) &&
  approxEqual (waterTemp s) (waterTemp BASE) (Qabs (waterTemp BASE) * BASELINE_EPS) &&
  approxEqual (upstreamLevel s) (upstreamLevel BASE)
              (Qabs (upstreamLevel BASE) * BASELINE_EPS) &&
  approxEqual (rainRate s) (rainRate BASE) 1.0.

(** The bucket cascade over the rounded likelihood. *)
Definition bucket (p : Z) : FloodStage :=
  if (DANGER_MIN <=? p)%Z then danger
  else if (WARNING_MIN <=? p)%Z then warning
  else if (WATCH_MIN <=? p)%Z then watch
  else normal.

(** Effect on [[lk, phase, S]]. *)
Definition stageEffect (snap : View) (w : World) : World :=
  if is_rampDown (phase snap) && negb (close (S_ snap)) then setStage subsiding w
  else
    let p := Math_round (lk snap) in
    let w := setStage (bucket p) w in
    if is_rampDown (phase snap) && close (S_ snap)
    then setDangerAlertedRef false (setEtaNow false (setEtaSeconds None (setPhase idle w)))
    else w.

(** [statusLabel], derived at render. *)
Definition statusLabel (v : View) : StatusLabel :=
  if is_rampDown (phase v) && is_subsiding (stage v) then SUBSIDING
  else stageToStatusLabel (stage v).

(** ** ETA countdown *)

Definition clearCountdown (w : World) : World :=
  match countdownTimerRef (refs w) with
  | Some h => setCountdownTimerRef None (clearTimer h w)
  | None => w
  end.

(** The updater run by the countdown interval once per second. *)
Definition countdownTick (prev : option Z) : option Z :=
  match prev with
  | None => None
  | Some n => if (n <=? 1)%Z then Some 1%Z else Some (n - 1)%Z
  end.

(** Effect on [[lk, etaSeconds, etaNow]]. *)
Definition etaEffect (snap : View) (w : World) : World :=
  if etaNow snap then clearCountdown w
  else
    let p := lkRef (refs w) in
    let w :=
      if Qgeb p COUNTDOWN_START_PCT && Qltb p PEAK_NOW_PCT && is_null (etaSeconds snap)
      then
        let w := setEtaSeconds (Some COUNTDOWN_START_S) w in
        let '(h, w) := startTimer CountdownInterval w in
        setCountdownTimerRef (Some h) w
      else w in
    let w :=
      if Qgeb p PEAK_NOW_PCT
      then clearCountdown (setEtaSeconds None (setEtaNow true w))
      else w in
    let w :=
      if Qltb p COUNTDOWN_START_PCT && negb (is_null (etaSeconds snap))
      then clearCountdown (setEtaSeconds None w)
      else w in
    w.

(** ** Danger bookkeeping *)

(** Effect on [[stage]]: the one-shot DANGER alert (the toast it pushes is
    presentation and is left out). *)
Definition dangerAlertEffect (snap : View) (w : World) : World :=
  if negb (dangerAlertedRef (refs w)) && is_danger (stage snap)
  then setDangerAlertedRef true w
  else w.

(** Effect on [[phase, stage]]; [now] is [performance.now()]. *)
Definition dangerSinceEffect (now : Q) (snap : View) (w : World) : World :=
  if is_rampUp (phase snap) && is_danger (stage snap)
  then if is_null (dangerSinceRef (refs w)) then setDangerSinceRef (Some now) w else w
  else setDangerSinceRef None w.

(** ** Demo flow *)

(** Effect on [[phase, rain, lk]]: rampUp to peakHold. *)
Definition peakHoldEffect (now : Q) (snap : View) (w : World) : World :=
  if negb (is_rampUp (phase snap)) || negb (is_null (peakHoldTimerRef (refs w))) then w
  else
    let inDangerForMs :=
      match dangerSinceRef (refs w) with Some t => now - t | None => 0 end in
    let rampUpForMs :=
      match rampUpSinceRef (refs w) with Some t => now - t | None => 0 end in
    let sustainedDanger := Qgeb inDangerForMs 3000 in
    let sustainedRain := Qgeb (rain snap) 99 in
    let maxRampUpPassed := Qgeb rampUpForMs 60000 in
    if Qgeb (lkRef (refs w)) PEAK_NOW_PCT || sustainedDanger || sustainedRain
       || maxRampUpPassed
    then
      let w := setPhase peakHold w in
      let w := setRain 100 w in
      let w := setEtaNow true w in
      let w := setEtaSeconds None w in
      let '(h, w) := startTimer PeakHoldTimeout w in
      setPeakHoldTimerRef (Some h) w
    else w.

(** Callback of the peak-hold timeout; the browser has already dropped the
    fired handle [h]. *)
Definition peakHoldFired (h : positive) (w : World) : World :=
  let w := clearTimer h w in
  let w := setPeakHoldTimerRef None w in
  let w := setPhase rampDown w in
  let w := setEtaNow false w in
  setEtaSeconds None w.

(** Callback of a countdown interval. *)
Definition countdownFired (w : World) : World :=
  setEtaSeconds (countdownTick (etaSeconds (st w))) w.

(** [onStartDemo]; [now] is [performance.now()]. *)
Definition onStartDemo (now : Q) (w : World) : World :=
  let w := setPhase rampUp w in
  let w := setEtaSeconds None w in
  let w := setEtaNow false w in
  let w := setDangerAlertedRef false w in
  let w := setRampUpSinceRef (Some now) w in
  setDangerSinceRef None w.

(** A click on "Start Demo Mode": the button is rendered with
    [disabled={phase !== "idle"}], and a disabled button runs no handler. *)
Definition clickStartDemo (now : Q) (w : World) : World :=
  if is_idle (phase (st w)) then onStartDemo now w else w.

(** ** The near-baseline test, metric by metric *)

Inductive Metric : Type :=
| MAirTemp | MHumidity | MLevel | MFlow | MPressure | MWind | MSoil
| MTurbidity | MWaterTemp | MUpstreamLevel | MRainRate | MDischargeQ.

Definition reading (m : Metric) (s : Sensors) : Q :=
  match m with
  | MAirTemp => airTemp s
  | MHumidity => humidity s
  | MLevel => level s
  | MFlow => flow s
  | MPressure => pressure s
  | MWind => wind s
  | MSoil => soil s
  | MTurbidity => turbidity s
  | MWaterTemp => waterTemp s
  | MUpstreamLevel => upstreamLevel s
  | MRainRate => rainRate s
  | MDischargeQ => dischargeQ s
  end.

(** The absolute tolerance [close] grants each metric it tracks: 3 % of
    the baseline, except for the rain rate, whose baseline is zero and
    which gets 1 mm/h.  The discharge is not tracked. *)
Definition tolerance (m : Metric) : option Q :=
  match m with
  | MRainRate => Some 1.0
  | MDischargeQ => None
  | _ => Some (Qabs (reading m BASE) * BASELINE_EPS)
  end.

Definition outside (m : Metric) (s : Sensors) : Prop :=
  exists tol, tolerance m = Some tol /\ tol < Qabs (reading m s - reading m BASE).

(** ** Invariant of the ETA display *)

Definition etaInv (v : View) : Prop :=
  (etaNow v = true -> etaSeconds v = None) /\
  (forall n, etaSeconds v = Some n -> (1 <= n <= COUNTDOWN_START_S)%Z).

(** The countdown value [k] seconds after it started. *)
Definition countdownAfter (k : nat) : option Z :=
  Nat.iter k countdownTick (Some COUNTDOWN_START_S).

(** ** Sensor tick *)

Section SensorModel.

(** [Math.pow], which has no rational model, is a parameter. *)
Variable Math_pow : Q -> Q -> Q.

Definition easePow (x p : Q) : Q := Math_pow (clamp01 x) p.

(** [targets], the [useMemo] over [rain]. *)
Definition targets (rain : Q) : Sensors :=
  let x := clamp01 (rain / 100) in
  let x1 := easePow x 1.12 in
  let x2 := easePow x 1.35 in
  let x3 := easePow x 1.7 in
  let airTemp' := airTemp BASE - 2.5 * x1 in
  let humidity' := humidity BASE + 25 * x1 in
  let level' := level BASE + 0.75 * x2 in
  let flow' := flow BASE + 0.9 * x1 in
  let pressure' := pressure BASE - 9 * x1 in
  let wind' := wind BASE + 3.2 * x1 in
  let soil' := soil BASE + 35 * x1 in
  let turbidity' := turbidity BASE + 85 * x3 in
  let waterTemp' := waterTemp BASE - 1.4 * x1 in
  let upstreamLevel' := upstreamLevel BASE + 0.8 * x2 in
  let rainRate' := rainRate BASE + 120 * x1 in
  let dischargeQ' := (level' * flow') * 100 in
  mkSensors airTemp' humidity' level' flow' pressure' wind' soil' turbidity'
            waterTemp' upstreamLevel' rainRate' dischargeQ'.

(** [Math.random()] draws from [0, 1). *)
Definition unitDraw (r : Q) : Prop := 0 <= r /\ r < 1.
Definition unitDraws (rnd : Sensors) : Prop :=
  forall m, unitDraw (reading m rnd).

(** One key of the [forEach]: ease toward the target, add jitter drawn
    from [Math.random() = r]. *)
Definition ease (current target r : Q) : Q :=
  let t := 0.2 in
  let j := 0.005 in
  let jitter := (r - 0.5) * j * (Qabs target + 1) in
  lerp current target t + jitter.

(** The updater passed to [setS]; [rnd] holds the twelve random draws. *)
Definition easeSensors (tg rnd cur : Sensors) : Sensors :=
  let nxt :=
    mkSensors (ease (airTemp cur) (airTemp tg) (airTemp rnd))
              (ease (humidity cur) (humidity tg) (humidity rnd))
              (ease (level cur) (level tg) (level rnd))
              (ease (flow cur) (flow tg) (flow rnd))
              (ease (pressure cur) (pressure tg) (pressure rnd))
              (ease (wind cur) (wind tg) (wind rnd))
              (ease (soil cur) (soil tg) (soil rnd))
              (ease (turbidity cur) (turbidity tg) (turbidity rnd))
              (ease (waterTemp cur) (waterTemp tg) (waterTemp rnd))
              (ease (upstreamLevel cur) (upstreamLevel tg) (upstreamLevel rnd))
              (ease (rainRate cur) (rainRate tg) (rainRate rnd))
              (ease (dischargeQ cur) (dischargeQ tg) (dischargeQ rnd)) in
  mkSensors (airTemp nxt)
            (clamp01 (humidity nxt / 100) * 100)
            (level nxt) (flow nxt) (pressure nxt) (wind nxt)
            (clamp01 (soil nxt / 100) * 100)
            (Qmax 0 (turbidity nxt))
            (waterTemp nxt) (upstreamLevel nxt) (rainRate nxt) (dischargeQ nxt).

(** The updater passed to [setRain] by the tick. *)
Definition driveRain (ph : SimPhase) (prev : Q) : Q :=
  match ph with
  | rampUp => Qmin 100 (prev + RAMP_UP_STEP)
  | rampDown => Qmax 0 (prev - RAMP_DOWN_STEP)
  | _ => prev
  end.

(** Callback of the tick interval; its closure holds the [phase] and
    [targets] of the render that installed it. *)
Definition sensorTick (rnd : Sensors) (w : World) : World :=
  let ph := phase (st w) in
  let tg := targets (rain (st w)) in
  let w := setRain (driveRain ph (rain (st w))) w in
  setS (easeSensors tg rnd (S_ (st w))) w.

(** ** Commits and events *)

Inductive Effect : Type :=
| EffSmooth | EffStage | EffEta | EffDangerAlert | EffDangerSince | EffPeakHold.

Definition runEffect (now : Q) (snap : View) (e : Effect) (w : World) : World :=
  match e with
  | EffSmooth => smoothEffect snap w
  | EffStage => stageEffect snap w
  | EffEta => etaEffect snap w
  | EffDangerAlert => dangerAlertEffect snap w
  | EffDangerSince => dangerSinceEffect now snap w
  | EffPeakHold => peakHoldEffect now snap w
  end.

(** The effects in the order the component declares them. *)
Definition effects : list Effect :=
  [EffSmooth; EffStage; EffEta; EffDangerAlert; EffDangerSince; EffPeakHold].

(** After a render commits, the effects whose dependencies changed ([run])
    fire in declaration order.  Each reads the committed view through its
    closure; their state updates accumulate into the next view. *)
Definition commit (now : Q) (run : Effect -> bool) (w : World) : World :=
  fold_left (fun acc e => if run e then runEffect now (st w) e acc else acc)
            effects w.

Inductive step : World -> World -> Prop :=
| step_commit now run w : step w (commit now run w)
| step_tick rnd w : unitDraws rnd -> step w (sensorTick rnd w)
| step_countdown h w :
    timers (win w) !! h = Some CountdownInterval -> step w (countdownFired w)
| step_peakHoldFired h w :
    timers (win w) !! h = Some PeakHoldTimeout -> step w (peakHoldFired h w)
| step_click now w : step w (clickStartDemo now w).

Inductive reachable : World -> Prop :=
| reach_initial : reachable initial
| reach_step w w' : reachable w -> step w w' -> reachable w'.

End SensorModel.

(** While a commit's effects run, the pending view can have the "now" flag
    set only if the committed view already had it. *)
Definition pendingInv (snap : View) (w : World) : Prop :=
  etaInv (st w) /\ (etaNow (st w) = true -> etaNow snap = true).

(** The stage is "subsiding" only in the rampDown phase; and the same for
    the pending view while a commit's effects run. *)
Definition subsidingInv (v : View) : Prop :=
  stage v = subsiding -> phase v = rampDown.

Definition pendingSubsiding (snap : View) (w : World) : Prop :=
  stage (st w) = subsiding -> phase snap = rampDown /\ phase (st w) = rampDown.

(** A sample run: "Start Demo Mode" is clicked at time 0 and the next
    commit runs every effect 60 s later, so the ramp-up fallback sends the
    demo to its peak hold. *)
Definition afterRampUpFallback : World :=
  commit 60000 (fun _ => true) (clickStartDemo 0 initial).

(** A stand-in for [Math.pow] that agrees with it wherever the base is 0
    or 1 (and the exponent positive), as it is while rain is 0 or 100. *)
Definition powAtEnds (x p : Q) : Q := x.

(** Twelve draws of 0.5 from [Math.random]: no jitter. *)
Definition steadyDraws : Sensors :=
  mkSensors 0.5 0.5 0.5 0.5 0.5 0.5 0.5 0.5 0.5 0.5 0.5 0.5.

(** The sample run continued: one sensor tick at full rain, then the
    peak-hold timeout fires and the next commit runs every effect. *)
Definition earlyRampDown : World :=
  commit 75250 (fun _ => true)
         (peakHoldFired 1 (sensorTick powAtEnds steadyDraws afterRampUpFallback)).

(** ** Ranges and the phase cycle *)

(** The phase that follows [p] in the demo cycle. *)
Definition nextPhase (p : SimPhase) : SimPhase :=
  match p with
  | idle => rampUp
  | rampUp => peakHold
  | peakHold => rampDown
  | rampDown => idle
  end.

(** Rain, likelihood and the three clamped sensors stay in range, and
    [lkRef] mirrors [lk]. *)
Definition rangeInv (w : World) : Prop :=
  (0 <= rain (st w) /\ rain (st w) <= 100) /\
  (0 <= lk (st w) /\ lk (st w) <= 100) /\
  lkRef (refs w) = lk (st w) /\
  (0 <= humidity (S_ (st w)) /\ humidity (S_ (st w)) <= 100) /\
  (0 <= soil (S_ (st w)) /\ soil (S_ (st w)) <= 100) /\
  0 <= turbidity (S_ (st w)).

(** Every live peak-hold timeout is the one [peakHoldTimerRef] holds, and
    that ref is set only during the peak hold. *)
Definition peakHoldInv (w : World) : Prop :=
  (forall h, timers (win w) !! h = Some PeakHoldTimeout ->
             peakHoldTimerRef (refs w) = Some h) /\
  (peakHoldTimerRef (refs w) <> None -> phase (st w) = peakHold).

(** The same while a commit's effects run against the snapshot [snap]. *)
Definition pendingPeakHold (snap : View) (w : World) : Prop :=
  (forall h, timers (win w) !! h = Some PeakHoldTimeout ->
             peakHoldTimerRef (refs w) = Some h) /\
  (peakHoldTimerRef (refs w) <> None ->
   phase (st w) = peakHold /\ (phase snap = peakHold \/ phase snap = rampUp)).

Definition pendingPhase (snap : View) (w : World) : Prop :=
  phase (st w) = phase snap \/ phase (st w) = nextPhase (phase snap).

(** One metric eased once per draw in [draws], the target held. *)
Definition easeRun (draws : list Q) (target cur : Q) : Q :=
  fold_left (fun v r => ease v target r) draws cur.

End ControlLite.

(* ================================================================== *)
(** * The transport, [utils/sensorBus]                                  *)
(* ================================================================== *)

Module SensorBus.

Record RiverSensors : Type := mkRiverSensors {
  waterLevelM : Q;
  flowRateMs : Q;
  rainfallMmHr : Q;
  tempC : Q;
  humidityPct : Q;
  pressureHpa : Q
}.

Inductive Status : Type := NORMAL | WATCH | WARNING | DANGER.

Record SkyData : Type := mkSkyData {
  floodLikelihoodPct : Q;
  etaSeconds : Q;
  status : option Status
}.

(** The two message kinds, with the tag each carries on the channel and
    the [localStorage] key that mirrors it. *)
Inductive Kind : Type := river | sky.

Definition kindTag (k : Kind) : string :=
  match k with river => "river" | sky => "sky" end.
Definition storageKey (k : Kind) : string :=
  match k with river => "fs_river_sensors" | sky => "fs_sky" end.

Inductive Payload : Type :=
| RiverPayload (d : RiverSensors)
| SkyPayload (d : SkyData).

(** [{ kind, data }] as posted on the channel. *)
Record Message : Type := mkMessage { kind : string; data : Payload }.

(** [{ t, data }] as mirrored into [localStorage].  The store holds the
    document that [JSON.parse] gives back for the stored string; payload
    fields are finite numbers, which [JSON.stringify] keeps as they are. *)
Record Stored : Type := mkStored { t : Z; sdata : Payload }.

(** [localStorage], shared by every tab of the origin.  When it is not
    [available] every access throws, and the callers' [try] swallows it. *)
Record Storage : Type := mkStorage {
  available : bool;
  items : gmap string Stored
}.

Definition getItem (key : string) (ls : Storage) : option (option Stored) :=
  if available ls then Some (items ls !! key) else None.
Definition setItem (key : string) (v : Stored) (ls : Storage) : option Storage :=
  if available ls then Some (mkStorage true (<[key := v]> (items ls))) else None.

(** A [storage] event: the key, and the new value when the browser filled
    one in. *)
Record StorageEvent : Type := mkStorageEvent {
  key : string;
  newValue : option Stored
}.

(** A registered callback [cb], named by a number, with the kind it
    listens for. *)
Record Listener : Type := mkListener { cb : nat; lkind : Kind }.

(** One browsing context: whether [new BroadcastChannel] succeeds there,
    what it has posted, its listeners, and every callback invocation so
    far (oldest first). *)
Record Tab : Type := mkTab {
  hasChannel : bool;
  posted : list Message;
  channelListeners : list Listener;
  storageListeners : list Listener;
  calls : list (nat * Payload)
}.

Definition call (c : nat) (d : Payload) (tb : Tab) : Tab :=
  mkTab (hasChannel tb) (posted tb) (channelListeners tb) (storageListeners tb)
        (calls tb ++ [(c, d)]).

(** [onMsg] of a listener. *)
Definition onMsg (l : Listener) (m : Message) (tb : Tab) : Tab :=
  if String.eqb (kind m) (kindTag (lkind l)) then call (cb l) (data m) tb else tb.

(** [onStorage] of a listener. *)
Definition onStorage (l : Listener) (e : StorageEvent) (tb : Tab) : Tab :=
  if String.eqb (key e) (storageKey (lkind l)) then
    match newValue e with
    | Some parsed => call (cb l) (sdata parsed) tb
    | None => tb
    end
  else tb.

(** [window.dispatchEvent] of a [storage] event. *)
Definition dispatchStorage (e : StorageEvent) (tb : Tab) : Tab :=
  fold_left (fun acc l => onStorage l e acc) (storageListeners tb) tb.

(** Delivery of a channel message posted by another tab. *)
Definition dispatchMessage (m : Message) (tb : Tab) : Tab :=
  fold_left (fun acc l => onMsg l m acc) (channelListeners tb) tb.

Definition postMessage (m : Message) (tb : Tab) : Tab :=
  if hasChannel tb
  then mkTab (hasChannel tb) (posted tb ++ [m]) (channelListeners tb)
             (storageListeners tb) (calls tb)
  else tb.

(** The body shared by [publishSensors] and [publishSky]; [now] is
    [Date.now()]. *)
Definition publish (k : Kind) (d : Payload) (now : Z)
    (tb : Tab) (ls : Storage) : Tab * Storage :=
  let tb := postMessage (mkMessage (kindTag k) d) tb in
  match setItem (storageKey k) (mkStored now d) ls with
  | Some ls' => (dispatchStorage (mkStorageEvent (storageKey k) None) tb, ls')
  | None => (tb, ls)
  end.


(** The body shared by [addSensorsListener] and [addSkyListener]. *)
Definition addListener (k : Kind) (c : nat) (tb : Tab) (ls : Storage) : Tab :=
  let l := mkListener c k in
  let tb :=
    if hasChannel tb
    then mkTab (hasChannel tb) (posted tb) (channelListeners tb ++ [l])
               (storageListeners tb) (calls tb)
    else tb in
  let tb :=
    match getItem (storageKey k) ls with
    | Some (Some parsed) => call c (sdata parsed) tb
    | _ => tb
    end in
  mkTab (hasChannel tb) (posted tb) (channelListeners tb)
        (storageListeners tb ++ [l]) (calls tb).







Definition Kind_eqb (a b : Kind) : bool :=
  match a, b with
  | river, river | sky, sky => true
  | _, _ => false
  end.



Definition Listener_eqb (a b : Listener) : bool :=
  Nat.eqb (cb a) (cb b) && Kind_eqb (lkind a) (lkind b).

Fixpoint removeFirst (l : Listener) (ls : list Listener) : list Listener :=
  match ls with
  | [] => []
  | x :: rest => if Listener_eqb x l then rest else x :: removeFirst l rest
  end.

(** [removeEventListener] takes out the one registration it is given; of
    several registrations that look alike here, the latest. *)
Definition removeLast (l : Listener) (ls : list Listener) : list Listener :=
  rev (removeFirst l (rev ls)).

(** The function [addSensorsListener] / [addSkyListener] return. *)
Definition removeListener (k : Kind) (c : nat) (tb : Tab) : Tab :=
  let l := mkListener c k in
  mkTab (hasChannel tb) (posted tb)
        (if hasChannel tb then removeLast l (channelListeners tb)
         else channelListeners tb)
        (removeLast l (storageListeners tb)) (calls tb).

(** How often callback [c] has been invoked. *)
Definition callsTo (c : nat) (tb : Tab) : nat :=
  List.length (List.filter (fun x => Nat.eqb (fst x) c) (calls tb)).

(** The listeners of [ls] that take a channel message tagged [tag], and
    those that take a storage event for [key]. *)
Definition takingTag (tag : string) (ls : list Listener) : list Listener :=
  List.filter (fun l => String.eqb tag (kindTag (lkind l))) ls.
Definition takingKey (key : string) (ls : list Listener) : list Listener :=
  List.filter (fun l => String.eqb key (storageKey (lkind l))) ls.

(** The payloads callback [c] has been handed, oldest first. *)
Definition heard (c : nat) (tb : Tab) : list Payload :=
  map snd (List.filter (fun x => Nat.eqb (fst x) c) (calls tb)).

(** How many registrations of callback [c] for kind [k] are among [ls]. *)
Definition registrations (c : nat) (k : Kind) (ls : list Listener) : nat :=
  List.length (List.filter (fun l => Nat.eqb (cb l) c && Kind_eqb (lkind l) k) ls).

End SensorBus.

(* ================================================================== *)
(** * The sky overlay's sanitiser, [sky-ov.tsx]                         *)
(* ================================================================== *)

Module SkyOv.

Local Open Scope Q_scope.

(** A JavaScript number. *)
Inductive jsnum : Type :=
| Num (q : Q)
| NaN
| PosInfinity
| NegInfinity.

(** A JavaScript value as it can sit in a field of a decoded snapshot.  A
    missing property reads as [JUndefined]. *)
Inductive jsval : Type :=
| JUndefined
| JNull
| JBool (b : bool)
| JNumber (n : jsnum)
| JString (s : string).

(** [SkyData] as held by the overlay; [status] is a string or undefined. *)
Record SkyData : Type := mkSkyData {
  floodLikelihoodPct : jsnum;
  etaSeconds : jsnum;
  status : option string
}.

(** The incoming object before any check. *)
Record Incoming : Type := mkIncoming {
  in_floodLikelihoodPct : jsval;
  in_etaSeconds : jsval;
  in_status : jsval
}.

Definition Number_isFinite (n : jsnum) : bool :=
  match n with Num _ => true | _ => false end.

Definition Math_round (n : jsnum) : jsnum :=
  match n with Num q => Num (inject_Z (Qfloor (q + 0.5))) | _ => n end.

Definition Math_floor (n : jsnum) : jsnum :=
  match n with Num q => Num (inject_Z (Qfloor q)) | _ => n end.

Definition Math_max (a b : jsnum) : jsnum :=
  match a, b with
  | NaN, _ | _, NaN => NaN
  | PosInfinity, _ | _, PosInfinity => PosInfinity
  | NegInfinity, x | x, NegInfinity => x
  | Num x, Num y => Num (Qmax x y)
  end.

Definition Math_min (a b : jsnum) : jsnum :=
  match a, b with
  | NaN, _ | _, NaN => NaN
  | NegInfinity, _ | _, NegInfinity => NegInfinity
  | PosInfinity, x | x, PosInfinity => x
  | Num x, Num y => Num (Qmin x y)
  end.

Section Coercion.

(** [Number] applied to a string parses it; the parser is a parameter. *)
Variable StringToNumber : string -> jsnum.

Definition Number (v : jsval) : jsnum :=
  match v with
  | JUndefined => NaN
  | JNull => Num 0
  | JBool true => Num 1
  | JBool false => Num 0
  | JNumber n => n
  | JString s => StringToNumber s
  end.

(** [input?.field]. *)
Definition field (f : Incoming -> jsval) (input : option Incoming) : jsval :=
  match input with Some i => f i | None => JUndefined end.

(** [function normalizeSky(input, prev)]. *)
Definition normalizeSky (input : option Incoming) (prev : SkyData) : SkyData :=
  let pct := Number (field in_floodLikelihoodPct input) in
  let eta := Number (field in_etaSeconds input) in
  let floodLikelihoodPct' :=
    if Number_isFinite pct
    then Math_min (Num 100) (Math_max (Num 0) (Math_round pct))
    else floodLikelihoodPct prev in
  let etaSeconds' :=
    if Number_isFinite eta
    then Math_max (Num 0) (Math_floor eta)
    else etaSeconds prev in
  let status' :=
    match field in_status input with
    | JString s => Some s
    | _ => status prev
    end in
  mkSkyData floodLikelihoodPct' etaSeconds' status'.

End Coercion.

(** The overlay's state before any live message. *)
Definition initialSky : SkyData := mkSkyData (Num 10) (Num 600) (Some "NORMAL"%string).

(** ** The overlay's state *)

Definition jsadd (a b : jsnum) : jsnum :=
  match a, b with
  | NaN, _ | _, NaN => NaN
  | PosInfinity, NegInfinity | NegInfinity, PosInfinity => NaN
  | PosInfinity, _ | _, PosInfinity => PosInfinity
  | NegInfinity, _ | _, NegInfinity => NegInfinity
  | Num x, Num y => Num (x + y)
  end.

(** [d] and [hasLiveRef] of [useSkyFromBusWithDemo]. *)
Record Overlay : Type := mkOverlay {
  d : SkyData;
  hasLiveRef : bool
}.

Definition initialOverlay : Overlay := mkOverlay initialSky false.

(** The callback given to [addSkyListener]. *)
Definition onIncoming (StringToNumber : string -> jsnum)
    (incoming : option Incoming) (o : Overlay) : Overlay :=
  mkOverlay (normalizeSky StringToNumber incoming (d o)) true.

(** The one-second demo interval; [r] is [Math.random()]. *)
Definition demoTick (r : Q) (o : Overlay) : Overlay :=
  if hasLiveRef o then o
  else
    let nextPct :=
      Math_max (Num 5)
               (Math_min (Num 70)
                         (jsadd (floodLikelihoodPct (d o)) (Num ((r - 0.5) * 2)))) in
    mkOverlay (mkSkyData (Math_round nextPct) (etaSeconds (d o)) (status (d o)))
              (hasLiveRef o).

Inductive overlayStep (StringToNumber : string -> jsnum) : Overlay -> Overlay -> Prop :=
| ov_incoming incoming o :
    overlayStep StringToNumber o (onIncoming StringToNumber incoming o)
| ov_demo r o : 0 <= r -> r < 1 -> overlayStep StringToNumber o (demoTick r o).

Inductive overlayReachable (StringToNumber : string -> jsnum) : Overlay -> Prop :=
| ov_initial : overlayReachable StringToNumber initialOverlay
| ov_step o o' :
    overlayReachable StringToNumber o -> overlayStep StringToNumber o o' ->
    overlayReachable StringToNumber o'.

(** What the card can rely on: a whole likelihood within 0..100, a whole
    ETA that is not negative, and a status that is present. *)
Definition overlayInv (x : SkyData) : Prop :=
  (exists z, floodLikelihoodPct x = Num (inject_Z z) /\ (0 <= z <= 100)%Z) /\
  (exists z, etaSeconds x = Num (inject_Z z) /\ (0 <= z)%Z) /\
  status x <> None.

(** A snapshot as it would come back in over the bus. *)
Definition asIncoming (x : SkyData) : Incoming :=
  mkIncoming (JNumber (floodLikelihoodPct x)) (JNumber (etaSeconds x))
             (match status x with Some s => JString s | None => JUndefined end).

(** What [formatEta] puts into its template: nothing but "Now", or the
    minutes and the seconds. *)
Inductive EtaText : Type :=
| Now
| MinSec (m s : Z).

(** [formatEta] on a whole number of seconds. *)
Definition formatEta (sec : Z) : EtaText :=
  if (sec <=? 0)%Z then Now else MinSec (sec / 60) (sec mod 60).

(** The ETA cell of the card: a dash unless [etaSeconds > 0]. *)
Definition etaCell (sec : Z) : option EtaText :=
  if (0 <? sec)%Z then Some (formatEta sec) else None.

End SkyOv.

(* ================================================================== *)
(** * The video displays, [sky.tsx] and [river.tsx]                     *)
(* ================================================================== *)

Module Displays.

Definition SUNNY : string := "/videos/sky-sunny.mp4".
Definition RAIN : string := "/videos/sky-rain.mp4".
Definition NORMAL : string := "/videos/river-normal.mp4".
Definition FLOOD : string := "/videos/river-flood.mp4".

Fixpoint isPrefix (a b : list Ascii.ascii) : bool :=
  match a, b with
  | [], _ => true
  | _ :: _, [] => false
  | x :: a', y :: b' => Ascii.eqb x y && isPrefix a' b'
  end.

(** [s.endsWith(t)]. *)
Definition endsWith (s t : string) : bool :=
  isPrefix (rev (list_ascii_of_string t)) (rev (list_ascii_of_string s)).

(** The [<video>] element: its resolved [src], and how often a source has
    been loaded into it. *)
Record Video : Type := mkVideo {
  src : string;
  loads : nat
}.

(** The component: its [state] and the element behind [videoRef]. *)
Record Display : Type := mkDisplay {
  state : Control.DisplayState;
  video : Video
}.

Section Page.

(** The origin the page is served from: the browser resolves an assigned
    path against it when [v.src] is read back. *)
Variable origin : string.

(** The two videos of the page: the calm one and the wet one. *)
Variables calm wet : string.

(** The mount effect. *)
Definition mounted : Display :=
  mkDisplay Control.NORMAL (mkVideo (origin ++ calm) 1).

(** [bus.onmessage]. *)
Definition onmessage (a : Control.FloodAction) (x : Display) : Display :=
  match a with
  | Control.TRIGGER_STATE st =>
      let target := match st with Control.RAIN => wet | Control.NORMAL => calm end in
      if endsWith (src (video x)) target then mkDisplay st (video x)
      else mkDisplay st (mkVideo (origin ++ target) (S (loads (video x))))
  | _ => x
  end.

(** The display shows what the control last announced. *)
Definition inSync (b : Control.Broadcast) (x : Display) : Prop :=
  state x = (if Control.wasRainingRef b then Control.RAIN else Control.NORMAL) /\
  src (video x) = (origin ++ (if Control.wasRainingRef b then wet else calm))%string.

(** The messages of [out] delivered in order. *)
Definition deliver (out : list Control.FloodAction) (x : Display) : Display :=
  fold_left (fun acc a => onmessage a acc) out x.

End Page.

Definition Sky_onmessage (origin : string) := onmessage origin SUNNY RAIN.
Definition River_onmessage (origin : string) := onmessage origin NORMAL FLOOD.

End Displays.

(* ================================================================== *)
(** * Properties                                                        *)
(* ================================================================== *)

(** ** Closed-form ETA *)

Section ClosedFormEta.
Import Control.
Local Open Scope R_scope.

Lemma eta_target_not_above (cur tgt : R) :
  tgt <= FLOOD_LEVEL -> etaToFloodSeconds cur tgt = POSITIVE_INFINITY.
Proof.
  intros Ht. unfold etaToFloodSeconds, FLOOD_LEVEL in *.
  destruct (Rle_dec (tgt - 1) 0) as [_|Hn]; [reflexivity | exfalso; lra].
Qed.

Lemma eta_crossed (cur tgt : R) :
  FLOOD_LEVEL < tgt -> FLOOD_LEVEL <= cur -> etaToFloodSeconds cur tgt = Finite 0.
Proof.
  intros Ht Hc. unfold etaToFloodSeconds, FLOOD_LEVEL in *.
  destruct (Rle_dec (tgt - 1) 0) as [Hle|_]; [exfalso; lra|].
  destruct (Rle_dec (tgt - cur) (tgt - 1)) as [_|Hn]; [reflexivity | exfalso; lra].
Qed.

(** C1, as stated, fails: with the level at 1.5 m, above the 1.00 m flood
    level, and a target of 0.5 m, the predictor answers "no event expected"
    (positive infinity), not 0. *)
Lemma eta_above_flood_target_below :
  FLOOD_LEVEL < 3 / 2 /\
  etaToFloodSeconds (3 / 2) (1 / 2) = POSITIVE_INFINITY /\
  etaToFloodSeconds (3 / 2) (1 / 2) <> Finite 0.
Proof.
  assert (E : etaToFloodSeconds (3 / 2) (1 / 2) = POSITIVE_INFINITY)
    by (apply eta_target_not_above; unfold FLOOD_LEVEL; lra).
  split; [unfold FLOOD_LEVEL; lra|].
  split; [exact E | rewrite E; discriminate].
Qed.

(** C1, amended: when the current level is strictly above the flood level,
    [etaToFloodSeconds] returns 0 if the target level is above the flood
    level too, and positive infinity if the target is at or below it. *)
Theorem eta_above_flood (cur tgt : R) :
  FLOOD_LEVEL < cur ->
  etaToFloodSeconds cur tgt =
    if Rle_dec tgt FLOOD_LEVEL then POSITIVE_INFINITY else Finite 0.
Proof.
  intros Hc. destruct (Rle_dec tgt FLOOD_LEVEL) as [Hle|Hgt].
  - now apply eta_target_not_above.
  - apply eta_crossed; lra.
Qed.

Lemma eta_above_flood_witness :
  etaToFloodSeconds (3 / 2) 2 =
    if Rle_dec 2 FLOOD_LEVEL then POSITIVE_INFINITY else Finite 0.
Proof.
  apply (eta_above_flood (3 / 2) 2). unfold FLOOD_LEVEL. lra.
Defined.

(** The manual surface labels a calm river under heavy rain DANGER without
    consulting any score. *)
Lemma status_by_level_and_rain (level : R) (rain : Z) :
  status level rain = "DANGER"%string <-> (FLOOD_LEVEL <= level \/ (90 <= rain)%Z).
Proof.
  unfold status, Rgeb.
  destruct (Rle_dec FLOOD_LEVEL level) as [H1|H1]; cbn [orb].
  - tauto.
  - destruct (Z.leb_spec 90 rain) as [H2|H2].
    + tauto.
    + destruct (Rle_dec (85 / 100) level), (75 <=? rain)%Z,
               (Rle_dec (70 / 100) level), (50 <=? rain)%Z; cbn [orb];
        (split; [discriminate | intros [?|?]; [contradiction | lia]]).
Qed.

End ClosedFormEta.

(** ** Likelihood smoothing *)

Section Likelihood.
Import ControlLite.
Local Open Scope Q_scope.




End Likelihood.

(** ** Stage classification *)

Section ManualStatus.
Import Control.
Local Open Scope R_scope.

(** The cascade of [status], label by label. *)
Lemma status_cascade (level : R) (rain : Z) :
  (status level rain = "DANGER"%string <->
     (FLOOD_LEVEL <= level \/ (90 <= rain)%Z)) /\
  (status level rain = "WARNING"%string <->
     ((level < FLOOD_LEVEL /\ (rain < 90)%Z) /\
      (85 / 100 <= level \/ (75 <= rain)%Z))) /\
  (status level rain = "WATCH"%string <->
     ((level < 85 / 100 /\ (rain < 75)%Z) /\
      (70 / 100 <= level \/ (50 <= rain)%Z))) /\
  (status level rain = "NORMAL"%string <->
     (level < 70 / 100 /\ (rain < 50)%Z)).
Proof.
  unfold status, Rgeb, FLOOD_LEVEL.
  destruct (Rle_dec 1 level) as [L1|L1], (Z.leb_spec 90 rain) as [R1|R1],
           (Rle_dec (85 / 100) level) as [L2|L2], (Z.leb_spec 75 rain) as [R2|R2],
           (Rle_dec (70 / 100) level) as [L3|L3], (Z.leb_spec 50 rain) as [R3|R3];
    cbn [orb];
    try (exfalso; lra); try (exfalso; lia);
    repeat split; intros; try discriminate; try reflexivity;
    try lra; try lia; try tauto;
    repeat match goal with
           | H : _ /\ _ |- _ => destruct H
           | H : _ \/ _ |- _ => destruct H
           end;
    try (exfalso; lra); try (exfalso; lia).
Qed.

(** C3, as stated, fails on the manual surface, whose [status] the claim
    also cites.  With the river at its baseline level 0.35 and flow 0.60
    and the slider at rain 50 (the level target is then about 0.54, below
    the flood level, so the ETA is infinite), the likelihood shown is 19,
    which the buckets would label NORMAL, yet the status shown is WATCH. *)
Lemma manual_status_not_by_score :
  etaToFloodSeconds (35 / 100) (54 / 100) = POSITIVE_INFINITY /\
  likelihood (etaToFloodSeconds (35 / 100) (54 / 100)) (35 / 100) (60 / 100) 50
    = 19%Z /\
  (19 < 40)%Z /\
  status (35 / 100) 50 = "WATCH"%string.
Proof.
  assert (E : etaToFloodSeconds (35 / 100) (54 / 100) = POSITIVE_INFINITY).
  { unfold etaToFloodSeconds, FLOOD_LEVEL.
    destruct (Rle_dec (54 / 100 - 1) 0) as [_|H]; [reflexivity | exfalso; lra]. }
  split; [exact E|]. rewrite E. split; [|split; [lia|]].
  - unfold likelihood, Math_round, clamp, FLOOD_LEVEL, BASE_flow, GAIN_flowRise.
    apply Zfloor_eq.
    replace (Rmin 1 (Rmax 0 (35 / 100 / 1))) with (35 / 100).
    2:{ rewrite Rmax_right by lra. rewrite Rmin_right by lra. lra. }
    replace (Rmin 1 (Rmax 0 ((60 / 100 - 60 / 100) / (140 / 100)))) with 0.
    2:{ replace ((60 / 100 - 60 / 100) / (140 / 100)) with 0 by lra.
        rewrite Rmax_left by lra. rewrite Rmin_right by lra. reflexivity. }
    cbn [IZR]. lra.
  - apply (proj1 (proj2 (proj2 (status_cascade (35 / 100) 50)))).
    unfold FLOOD_LEVEL. split; [split; [lra | lia] | right; lia].
Qed.

End ManualStatus.

Section Stage.
Import ControlLite.
Local Open Scope Q_scope.

Example Math_round_half_up :
  Math_round 79.5 = 80%Z /\ Math_round 79.49 = 79%Z /\ Math_round (-0.5) = 0%Z.
Proof. repeat split. Qed.

Example rawLikelihood_at_baseline : rawLikelihood BASE == 0.
Proof. reflexivity. Qed.

Example close_at_baseline : close BASE = true.
Proof. reflexivity. Qed.

Lemma Math_round_nearest (x : Q) :
  inject_Z (Math_round x) - 0.5 <= x /\ x < inject_Z (Math_round x) + 0.5.
Proof.
  unfold Math_round.
  pose proof (Qfloor_le (x + 0.5)) as Hlo.
  pose proof (Qlt_floor (x + 0.5)) as Hhi.
  rewrite inject_Z_plus in Hhi. change (inject_Z 1) with 1 in Hhi.
  split; lra.
Qed.

Lemma bucket_spec (p : Z) :
  (bucket p = normal <-> (p < 40)%Z) /\
  (bucket p = watch <-> (40 <= p <= 69)%Z) /\
  (bucket p = warning <-> (70 <= p <= 79)%Z) /\
  (bucket p = danger <-> (80 <= p)%Z) /\
  bucket p <> subsiding.
Proof.
  unfold bucket, DANGER_MIN, WARNING_MIN, WATCH_MIN.
  destruct (Z.leb_spec 80 p); [|destruct (Z.leb_spec 70 p); [|destruct (Z.leb_spec 40 p)]];
    repeat split; intros; try discriminate; try lia.
Qed.

Lemma stageEffect_stage (snap : View) (w : World) :
  stage (st (stageEffect snap w)) =
    if is_rampDown (phase snap) && negb (close (S_ snap)) then subsiding
    else bucket (Math_round (lk snap)).
Proof.
  unfold stageEffect.
  destruct (is_rampDown (phase snap)), (close (S_ snap)); reflexivity.
Qed.

Lemma stageEffect_phase (snap : View) (w : World) :
  phase (st (stageEffect snap w)) =
    if is_rampDown (phase snap) && close (S_ snap) then idle else phase (st w).
Proof.
  unfold stageEffect.
  destruct (is_rampDown (phase snap)), (close (S_ snap)); reflexivity.
Qed.

Lemma statusLabel_SUBSIDING (v : View) :
  statusLabel v = SUBSIDING <-> stage v = subsiding.
Proof.
  unfold statusLabel.
  destruct (is_rampDown (phase v)), (stage v); cbn; split; intros; congruence.
Qed.

Lemma statusLabel_bucket (v : View) :
  stage v <> subsiding -> statusLabel v = stageToStatusLabel (stage v).
Proof.
  unfold statusLabel.
  destruct (is_rampDown (phase v)), (stage v); cbn; intros; congruence.
Qed.

Lemma is_rampDown_true (p : SimPhase) : is_rampDown p = true <-> p = rampDown.
Proof. destruct p; cbn; split; intros; congruence. Qed.

(** C3, amended: the score buckets are those of the scripted surface.
    There, when the SUBSIDING override does not apply, the stage effect
    rounds the likelihood to the nearest integer [p] and reports NORMAL for
    [p < 40], WATCH for [40 <= p <= 69], WARNING for [70 <= p <= 79] and
    DANGER for [80 <= p]; the four ranges leave no gap and do not overlap.
    The manual surface labels by river level and rain instead, whatever the
    score: DANGER from the flood level or rain 90, otherwise WARNING from
    level 0.85 or rain 75, otherwise WATCH from level 0.70 or rain 50,
    otherwise NORMAL. *)
Theorem stage_buckets (snap : View) (w : World) (level : R) (rain : Z) :
  (is_rampDown (phase snap) && negb (close (S_ snap)) = false ->
   let p := Math_round (lk snap) in
   let label := statusLabel (st (stageEffect snap w)) in
   (inject_Z p - 0.5 <= lk snap /\ lk snap < inject_Z p + 0.5) /\
   stage (st (stageEffect snap w)) = bucket p /\
   (label = NORMAL <-> (p < 40)%Z) /\
   (label = WATCH <-> (40 <= p <= 69)%Z) /\
   (label = WARNING <-> (70 <= p <= 79)%Z) /\
   (label = DANGER <-> (80 <= p)%Z) /\
   ((p < 40)%Z \/ (40 <= p <= 69)%Z \/ (70 <= p <= 79)%Z \/ (80 <= p)%Z) /\
   (NORMAL_MAX + 1 = WATCH_MIN /\ WATCH_MAX + 1 = WARNING_MIN /\
    WARNING_MAX + 1 = DANGER_MIN)%Z) /\
  (Control.status level rain = "DANGER"%string <->
     ((Control.FLOOD_LEVEL <= level)%R \/ (90 <= rain)%Z)) /\
  (Control.status level rain = "WARNING"%string <->
     (((level < Control.FLOOD_LEVEL)%R /\ (rain < 90)%Z) /\
      ((85 / 100 <= level)%R \/ (75 <= rain)%Z))) /\
  (Control.status level rain = "WATCH"%string <->
     (((level < 85 / 100)%R /\ (rain < 75)%Z) /\
      ((70 / 100 <= level)%R \/ (50 <= rain)%Z))) /\
  (Control.status level rain = "NORMAL"%string <->
     ((level < 70 / 100)%R /\ (rain < 50)%Z)).
Proof.
  split; [|exact (status_cascade level rain)].
  intros Hov p label.
  assert (Hst : stage (st (stageEffect snap w)) = bucket p)
    by (rewrite stageEffect_stage, Hov; reflexivity).
  destruct (bucket_spec p) as (Hn & Hwa & Hwr & Hd & Hns).
  assert (Hl : label = stageToStatusLabel (bucket p)).
  { unfold label. rewrite statusLabel_bucket; rewrite Hst; auto. }
  split; [apply Math_round_nearest|].
  split; [exact Hst|].
  rewrite Hl, <- Hn, <- Hwa, <- Hwr, <- Hd.
  repeat split; try (destruct (bucket p); cbn; congruence).
  destruct (bucket p) eqn:E; cbn; tauto.
Qed.

Lemma stage_buckets_witness :
  (stage (st (stageEffect (mkView rampUp 100 BASE 69.5 watch None false) initial))
     = bucket 70 /\
   statusLabel (st (stageEffect (mkView rampUp 100 BASE 69.5 watch None false) initial))
     = WARNING) /\
  Control.status (35 / 100) 50 = "WATCH"%string.
Proof.
  pose proof (stage_buckets (mkView rampUp 100 BASE 69.5 watch None false)
                            initial (35 / 100) 50) as (Hs & _ & _ & Hm & _).
  split.
  - destruct (Hs eq_refl) as (_ & Hb & _ & _ & Hw & _).
    split; [exact Hb | apply Hw; vm_compute; split; discriminate].
  - apply Hm. unfold Control.FLOOD_LEVEL.
    split; [split; [lra | lia] | right; lia].
Defined.

(** [close] holds exactly when every tracked metric is within its
    tolerance of the baseline. *)
Lemma close_true (s : Sensors) :
  close s = true <->
  forall m tol, tolerance m = Some tol -> Qabs (reading m s - reading m BASE) <= tol.
Proof.
  unfold close, approxEqual. rewrite !andb_true_iff, !Qle_bool_iff. split.
  - intros H m tol Ht.
    destruct m; unfold tolerance, reading in Ht |- *;
      first [discriminate Ht | injection Ht as <-; tauto].
  - intros H.
    repeat split;
      first [ apply (H MAirTemp _ eq_refl) | apply (H MHumidity _ eq_refl)
            | apply (H MLevel _ eq_refl) | apply (H MFlow _ eq_refl)
            | apply (H MPressure _ eq_refl) | apply (H MWind _ eq_refl)
            | apply (H MSoil _ eq_refl) | apply (H MTurbidity _ eq_refl)
            | apply (H MWaterTemp _ eq_refl) | apply (H MUpstreamLevel _ eq_refl)
            | apply (H MRainRate _ eq_refl) ].
Qed.

Lemma Qle_bool_false (x y : Q) : Qle_bool x y = false -> y < x.
Proof.
  intros H. apply Qnot_le_lt. intros Hle.
  apply Qle_bool_iff in Hle. congruence.
Qed.

Lemma close_false (s : Sensors) :
  close s = false <-> exists m, outside m s.
Proof.
  split.
  - unfold close, approxEqual. rewrite !andb_false_iff.
    intros H. decompose [or] H; clear H;
      match goal with
      | H : Qle_bool (Qabs (?f s - _)) _ = false |- _ =>
          apply Qle_bool_false in H;
          first [ (exists MAirTemp; eexists; split; [reflexivity | exact H])
                | (exists MHumidity; eexists; split; [reflexivity | exact H])
                | (exists MLevel; eexists; split; [reflexivity | exact H])
                | (exists MFlow; eexists; split; [reflexivity | exact H])
                | (exists MPressure; eexists; split; [reflexivity | exact H])
                | (exists MWind; eexists; split; [reflexivity | exact H])
                | (exists MSoil; eexists; split; [reflexivity | exact H])
                | (exists MTurbidity; eexists; split; [reflexivity | exact H])
                | (exists MWaterTemp; eexists; split; [reflexivity | exact H])
                | (exists MUpstreamLevel; eexists; split; [reflexivity | exact H])
                | (exists MRainRate; eexists; split; [reflexivity | exact H]) ]
      end.
  - intros (m & tol & Ht & Hout).
    destruct (close s) eqn:E; [|reflexivity].
    pose proof (proj1 (close_true s) E m tol Ht) as Hle.
    exfalso. apply (Qlt_not_le _ _ Hout Hle).
Qed.

End Stage.

(** ** The windowed countdown *)

Section Countdown.
Import ControlLite.
Local Open Scope Q_scope.

Lemma Qgeb_true (p c : Q) : Qgeb p c = true <-> c <= p.
Proof. unfold Qgeb. apply Qle_bool_iff. Qed.

Lemma Qgeb_false (p c : Q) : Qgeb p c = false <-> p < c.
Proof.
  unfold Qgeb. split.
  - apply Qle_bool_false.
  - intros H. destruct (Qle_bool c p) eqn:E; [|reflexivity].
    apply Qle_bool_iff in E. exfalso. apply (Qlt_not_le _ _ H E).
Qed.

Lemma Qltb_negb (p c : Q) : Qltb p c = negb (Qgeb p c).
Proof. reflexivity. Qed.

Lemma clearCountdown_st (w : World) : st (clearCountdown w) = st w.
Proof. unfold clearCountdown. destruct (countdownTimerRef (refs w)); reflexivity. Qed.

Lemma clearCountdown_ref (w : World) :
  countdownTimerRef (refs (clearCountdown w)) = None.
Proof.
  unfold clearCountdown. destruct (countdownTimerRef (refs w)) eqn:E; [reflexivity | exact E].
Qed.

Lemma clearCountdown_timer (w : World) (h : positive) :
  countdownTimerRef (refs w) = Some h ->
  timers (win (clearCountdown w)) !! h = None.
Proof.
  intros E. unfold clearCountdown. rewrite E. cbn. apply lookup_delete_eq.
Qed.

Lemma countdownTick_floor (n : Z) :
  countdownTick (Some n) = Some (Z.max 1 (n - 1)).
Proof.
  unfold countdownTick. destruct (Z.leb_spec n 1); f_equal; lia.
Qed.

Lemma countdownAfter_value (k : nat) :
  countdownAfter k = Some (Z.max 1 (COUNTDOWN_START_S - Z.of_nat k)).
Proof.
  unfold countdownAfter, COUNTDOWN_START_S. induction k as [|k IH].
  - reflexivity.
  - rewrite Nat.iter_succ, IH, countdownTick_floor. f_equal. lia.
Qed.

Example countdown_pinned_at_one :
  countdownAfter 19 = Some 1%Z /\ countdownAfter 25 = Some 1%Z.
Proof. split; reflexivity. Qed.

(** C5, as stated, fails: with the "now" flag set (as the peak hold forces
    it), no countdown active and the likelihood at 96, inside the window,
    the ETA effect starts no countdown. *)
Lemma countdown_not_started_when_now :
  COUNTDOWN_START_PCT <= 96 /\ 96 < PEAK_NOW_PCT /\
  etaSeconds (mkView peakHold 100 BASE 96 danger None true) = None /\
  countdownTimerRef (mkRefs 96 None (Some 1%positive) true (Some 0) None) = None /\
  etaSeconds
    (st (etaEffect (mkView peakHold 100 BASE 96 danger None true)
           (mkWorld (mkView peakHold 100 BASE 96 danger None true)
                    (mkRefs 96 None (Some 1%positive) true (Some 0) None)
                    (mkWindow {[ 1%positive := PeakHoldTimeout ]} 2%positive))))
    <> Some COUNTDOWN_START_S.
Proof.
  repeat split; try reflexivity; try discriminate.
Qed.

Lemma clearCountdown_keeps (w : World) (h : positive) (k : Timer) :
  timers (win (clearCountdown w)) !! h = Some k -> timers (win w) !! h = Some k.
Proof.
  unfold clearCountdown. destruct (countdownTimerRef (refs w)) as [c|]; [|tauto].
  cbn. intros H. apply lookup_delete_Some in H. tauto.
Qed.

Lemma clearCountdown_nextTimer (w : World) :
  nextTimer (win (clearCountdown w)) = nextTimer (win w).
Proof. unfold clearCountdown. destruct (countdownTimerRef (refs w)); reflexivity. Qed.

(** C5, amended.  While the "now" flag is not set, the ETA effect
    - starts the countdown at exactly 20 and registers its interval when
      the likelihood is in [95, 99) and no countdown value is shown;
    - changes nothing when the likelihood is in [95, 99) and a countdown
      value is already shown;
    - clears the value and the interval when the likelihood is below 95
      and a value is shown;
    - switches to "now" and tears the interval down at 99 or more.
    While the "now" flag is set the effect starts no countdown, whatever
    the likelihood: it leaves the displayed state alone, registers no
    timer, and tears down the interval the ref holds.
    Each firing of the interval lowers the value by 1 but never below 1, so
    [k] seconds after the start it shows [max 1 (20 - k)]. *)
Theorem countdown_window (snap : View) (w : World) :
  (etaNow snap = false ->
   (COUNTDOWN_START_PCT <= lkRef (refs w) -> lkRef (refs w) < PEAK_NOW_PCT ->
    etaSeconds snap = None ->
    etaSeconds (st (etaEffect snap w)) = Some 20%Z /\
    countdownTimerRef (refs (etaEffect snap w)) = Some (nextTimer (win w)) /\
    timers (win (etaEffect snap w)) !! nextTimer (win w) = Some CountdownInterval) /\
   (COUNTDOWN_START_PCT <= lkRef (refs w) -> lkRef (refs w) < PEAK_NOW_PCT ->
    etaSeconds snap <> None ->
    etaEffect snap w = w) /\
   (lkRef (refs w) < COUNTDOWN_START_PCT ->
    etaSeconds snap <> None ->
    etaSeconds (st (etaEffect snap w)) = None /\
    countdownTimerRef (refs (etaEffect snap w)) = None /\
    forall h, countdownTimerRef (refs w) = Some h ->
              timers (win (etaEffect snap w)) !! h = None) /\
   (PEAK_NOW_PCT <= lkRef (refs w) ->
    etaNow (st (etaEffect snap w)) = true /\
    etaSeconds (st (etaEffect snap w)) = None /\
    countdownTimerRef (refs (etaEffect snap w)) = None /\
    (forall h, countdownTimerRef (refs w) = Some h ->
               timers (win (etaEffect snap w)) !! h = None) /\
    (forall h k, timers (win (etaEffect snap w)) !! h = Some k ->
                 timers (win w) !! h = Some k))) /\
  (etaNow snap = true ->
   st (etaEffect snap w) = st w /\
   countdownTimerRef (refs (etaEffect snap w)) = None /\
   nextTimer (win (etaEffect snap w)) = nextTimer (win w) /\
   (forall h k, timers (win (etaEffect snap w)) !! h = Some k ->
                timers (win w) !! h = Some k) /\
   (forall h, countdownTimerRef (refs w) = Some h ->
              timers (win (etaEffect snap w)) !! h = None)) /\
  (forall n : Z, countdownTick (Some n) = Some (Z.max 1 (n - 1))) /\
  countdownTick None = None /\
  (forall k : nat, countdownAfter k = Some (Z.max 1 (20 - Z.of_nat k))).
Proof.
  split; [|split].
  - intros Hnow. unfold etaEffect. rewrite Hnow, !Qltb_negb.
    set (p := lkRef (refs w)).
    split; [|split; [|split]].
    + intros H95 H99 Hnone.
      apply Qgeb_true in H95. apply Qgeb_false in H99.
      rewrite H95, H99, Hnone. cbn.
      repeat split. apply lookup_insert_eq.
    + intros H95 H99 Hsome.
      apply Qgeb_true in H95. apply Qgeb_false in H99.
      rewrite H95, H99. destruct (etaSeconds snap); [reflexivity | congruence].
    + intros H95 Hsome.
      assert (H99 : Qgeb p PEAK_NOW_PCT = false).
      { apply Qgeb_false. unfold COUNTDOWN_START_PCT, PEAK_NOW_PCT in *. lra. }
      apply Qgeb_false in H95. rewrite H95, H99.
      destruct (etaSeconds snap) as [n|]; [|congruence]. cbn [andb negb is_null].
      rewrite clearCountdown_st, clearCountdown_ref. repeat split.
      intros h Hh. apply clearCountdown_timer. exact Hh.
    + intros H99.
      assert (H95 : Qgeb p COUNTDOWN_START_PCT = true).
      { apply Qgeb_true. unfold COUNTDOWN_START_PCT, PEAK_NOW_PCT in *. lra. }
      apply Qgeb_true in H99. rewrite H95, H99. cbn [andb negb].
      rewrite clearCountdown_st, clearCountdown_ref.
      split; [reflexivity|]. split; [reflexivity|]. split; [reflexivity|]. split.
      * intros h Hh. apply clearCountdown_timer. exact Hh.
      * intros h k Hk. apply clearCountdown_keeps in Hk. exact Hk.
  - intros Hnow. unfold etaEffect. rewrite Hnow.
    split; [apply clearCountdown_st|].
    split; [apply clearCountdown_ref|].
    split; [apply clearCountdown_nextTimer|].
    split; [apply clearCountdown_keeps | apply clearCountdown_timer].
  - split; [exact countdownTick_floor|]. split; [reflexivity|].
    exact countdownAfter_value.
Qed.

Lemma countdown_window_witness :
  (etaSeconds (st (etaEffect (st (setLkRef 96 initial)) (setLkRef 96 initial)))
     = Some 20%Z /\
   countdownTimerRef (refs (etaEffect (st (setLkRef 96 initial)) (setLkRef 96 initial)))
     = Some 1%positive) /\
  st (etaEffect (mkView peakHold 100 BASE 96 danger None true)
        (mkWorld (mkView peakHold 100 BASE 96 danger None true)
                 (mkRefs 96 None (Some 1%positive) true (Some 0) None)
                 (mkWindow {[ 1%positive := PeakHoldTimeout ]} 2%positive)))
  = mkView peakHold 100 BASE 96 danger None true.
Proof.
  split.
  - pose proof (proj1 (countdown_window (st (setLkRef 96 initial))
                                        (setLkRef 96 initial)) eq_refl) as H.
    destruct H as (H & _). destruct H as (Hs & Hr & _).
    + vm_compute. discriminate.
    + vm_compute. reflexivity.
    + reflexivity.
    + split; [exact Hs | exact Hr].
  - apply (proj1 (proj2 (countdown_window
             (mkView peakHold 100 BASE 96 danger None true)
             (mkWorld (mkView peakHold 100 BASE 96 danger None true)
                      (mkRefs 96 None (Some 1%positive) true (Some 0) None)
                      (mkWindow {[ 1%positive := PeakHoldTimeout ]} 2%positive))))
             eq_refl).
Defined.

End Countdown.

(** ** The ETA display over every run *)

Section EtaDisplay.
Import ControlLite.
Local Open Scope Q_scope.

Lemma etaInv_cleared (v : View) : etaSeconds v = None -> etaInv v.
Proof. unfold etaInv. intros ->. split; [reflexivity | discriminate]. Qed.

Lemma smoothEffect_pending (snap : View) (w : World) :
  pendingInv snap w -> pendingInv snap (smoothEffect snap w).
Proof. unfold pendingInv, etaInv, smoothEffect. cbn. trivial. Qed.

Lemma stageEffect_pending (snap : View) (w : World) :
  pendingInv snap w -> pendingInv snap (stageEffect snap w).
Proof.
  unfold pendingInv, etaInv, stageEffect.
  destruct (is_rampDown (phase snap)), (close (S_ snap)); cbn; trivial.
  intros _. repeat split; discriminate.
Qed.

Lemma etaEffect_inv (snap : View) (w : World) :
  pendingInv snap w -> etaInv (st (etaEffect snap w)).
Proof.
  intros [Hinv Hnow]. unfold etaEffect.
  destruct (etaNow snap) eqn:En.
  - rewrite clearCountdown_st. exact Hinv.
  - assert (Hp : etaNow (st w) = false).
    { destruct (etaNow (st w)); [|reflexivity]. symmetry. now apply Hnow. }
    rewrite !Qltb_negb.
    destruct (Qgeb (lkRef (refs w)) COUNTDOWN_START_PCT),
             (Qgeb (lkRef (refs w)) PEAK_NOW_PCT),
             (etaSeconds snap);
      cbn [andb negb is_null]; rewrite ?clearCountdown_st;
      try exact Hinv; try (apply etaInv_cleared; reflexivity).
    unfold etaInv. cbn. rewrite Hp. split; [discriminate|].
    intros n [= <-]. unfold COUNTDOWN_START_S. lia.
Qed.

Lemma dangerAlertEffect_inv (snap : View) (w : World) :
  etaInv (st w) -> etaInv (st (dangerAlertEffect snap w)).
Proof.
  unfold dangerAlertEffect.
  destruct (negb (dangerAlertedRef (refs w)) && is_danger (stage snap)); trivial.
Qed.

Lemma dangerSinceEffect_inv (now : Q) (snap : View) (w : World) :
  etaInv (st w) -> etaInv (st (dangerSinceEffect now snap w)).
Proof.
  unfold dangerSinceEffect.
  destruct (is_rampUp (phase snap) && is_danger (stage snap)),
           (is_null (dangerSinceRef (refs w))); trivial.
Qed.

Lemma peakHoldEffect_inv (now : Q) (snap : View) (w : World) :
  etaInv (st w) -> etaInv (st (peakHoldEffect now snap w)).
Proof.
  unfold peakHoldEffect. intros H.
  destruct (negb (is_rampUp (phase snap)) || negb (is_null (peakHoldTimerRef (refs w))));
    [exact H|].
  match goal with |- context [if ?c then _ else _] => destruct c end; [|exact H].
  apply etaInv_cleared. reflexivity.
Qed.

Lemma commit_inv (now : Q) (run : Effect -> bool) (w : World) :
  etaInv (st w) -> etaInv (st (commit now run w)).
Proof.
  intros H. unfold commit, effects. cbn [fold_left runEffect].
  assert (P0 : pendingInv (st w) w) by (split; [exact H | trivial]).
  set (w1 := if run EffSmooth then smoothEffect (st w) w else w).
  assert (P1 : pendingInv (st w) w1)
    by (unfold w1; destruct (run EffSmooth); [now apply smoothEffect_pending | exact P0]).
  set (w2 := if run EffStage then stageEffect (st w) w1 else w1).
  assert (P2 : pendingInv (st w) w2)
    by (unfold w2; destruct (run EffStage); [now apply stageEffect_pending | exact P1]).
  set (w3 := if run EffEta then etaEffect (st w) w2 else w2).
  assert (P3 : etaInv (st w3))
    by (unfold w3; destruct (run EffEta); [now apply etaEffect_inv | apply P2]).
  set (w4 := if run EffDangerAlert then dangerAlertEffect (st w) w3 else w3).
  assert (P4 : etaInv (st w4))
    by (unfold w4; destruct (run EffDangerAlert);
        [now apply dangerAlertEffect_inv | exact P3]).
  set (w5 := if run EffDangerSince then dangerSinceEffect now (st w) w4 else w4).
  assert (P5 : etaInv (st w5))
    by (unfold w5; destruct (run EffDangerSince);
        [now apply dangerSinceEffect_inv | exact P4]).
  destruct (run EffPeakHold); [now apply peakHoldEffect_inv | exact P5].
Qed.

Lemma countdownFired_inv (w : World) :
  etaInv (st w) -> etaInv (st (countdownFired w)).
Proof.
  unfold etaInv, countdownFired. cbn. intros [Hn Hb]. split.
  - intros E. rewrite (Hn E). reflexivity.
  - intros n. destruct (etaSeconds (st w)) as [m|]; [|discriminate].
    rewrite countdownTick_floor. intros [= <-].
    specialize (Hb m eq_refl). unfold COUNTDOWN_START_S in *. lia.
Qed.

Lemma clickStartDemo_inv (now : Q) (w : World) :
  etaInv (st w) -> etaInv (st (clickStartDemo now w)).
Proof.
  unfold clickStartDemo. destruct (is_idle (phase (st w))); [intros _ | trivial].
  apply etaInv_cleared. reflexivity.
Qed.

Lemma step_inv (Math_pow : Q -> Q -> Q) (w w' : World) :
  step Math_pow w w' -> etaInv (st w) -> etaInv (st w').
Proof.
  intros Hs H. destruct Hs.
  - now apply commit_inv.
  - exact H.
  - now apply countdownFired_inv.
  - apply etaInv_cleared. reflexivity.
  - now apply clickStartDemo_inv.
Qed.

Lemma reachable_inv (Math_pow : Q -> Q -> Q) (w : World) :
  reachable Math_pow w -> etaInv (st w).
Proof.
  induction 1 as [|w w' _ IH Hs].
  - apply etaInv_cleared. reflexivity.
  - exact (step_inv Math_pow w w' Hs IH).
Qed.

(** C7: in every state the scripted surface can reach, the "now" flag and a
    numeric countdown exclude each other, and a countdown value, when
    present, is non-negative (indeed between 1 and 20). *)
Theorem eta_now_excludes_countdown (Math_pow : Q -> Q -> Q) (w : World) :
  reachable Math_pow w ->
  (etaNow (st w) = true -> etaSeconds (st w) = None) /\
  (forall n : Z, etaSeconds (st w) = Some n -> (0 <= n)%Z /\ (1 <= n <= 20)%Z).
Proof.
  intros Hr. destruct (reachable_inv Math_pow w Hr) as [Hn Hb].
  split; [exact Hn|].
  intros n E. specialize (Hb n E). unfold COUNTDOWN_START_S in Hb. lia.
Qed.

Lemma afterRampUpFallback_reachable (Math_pow : Q -> Q -> Q) :
  reachable Math_pow afterRampUpFallback.
Proof.
  unfold afterRampUpFallback.
  eapply reach_step; [|apply step_commit].
  eapply reach_step; [apply reach_initial | apply step_click].
Qed.

Lemma eta_now_excludes_countdown_witness :
  phase (st afterRampUpFallback) = peakHold /\
  etaNow (st afterRampUpFallback) = true /\
  etaSeconds (st afterRampUpFallback) = None.
Proof.
  split; [vm_compute; reflexivity|].
  split; [vm_compute; reflexivity|].
  apply (eta_now_excludes_countdown powAtEnds afterRampUpFallback).
  - unfold afterRampUpFallback.
    eapply reach_step; [|apply step_commit].
    eapply reach_step; [apply reach_initial | apply step_click].
  - vm_compute. reflexivity.
Defined.

End EtaDisplay.

(** ** Restarting the demo *)

Section DemoModeScript.
Import Control.

Lemma clearRamp_timers (s : Demo) (h : positive) (k : Timer) :
  owned s -> timers (clearRamp s) !! h = Some k -> holdTimeoutRef s = Some h.
Proof.
  intros Ho. unfold clearRamp. destruct (rampIntervalRef s) as [r|] eqn:Er; cbn.
  - intros Hl. apply lookup_delete_Some in Hl as [Hne Hl].
    destruct (Ho h k Hl) as [E|E]; [congruence | exact E].
  - intros Hl. destruct (Ho h k Hl) as [E|E]; [congruence | exact E].
Qed.

Lemma clearHold_timers (s : Demo) (h : positive) (k : Timer) :
  owned s -> timers (clearHold s) !! h = Some k -> rampIntervalRef s = Some h.
Proof.
  intros Ho. unfold clearHold. destruct (holdTimeoutRef s) as [r|] eqn:Er; cbn.
  - intros Hl. apply lookup_delete_Some in Hl as [Hne Hl].
    destruct (Ho h k Hl) as [E|E]; [exact E | congruence].
  - intros Hl. destruct (Ho h k Hl) as [E|E]; [exact E | congruence].
Qed.

Lemma clearRamp_ref (s : Demo) : rampIntervalRef (clearRamp s) = None.
Proof.
  unfold clearRamp. destruct (rampIntervalRef s) eqn:E; [reflexivity | exact E].
Qed.

Lemma clearRamp_hold (s : Demo) : holdTimeoutRef (clearRamp s) = holdTimeoutRef s.
Proof. unfold clearRamp. destruct (rampIntervalRef s); reflexivity. Qed.

Lemma clearHold_ref (s : Demo) : holdTimeoutRef (clearHold s) = None.
Proof.
  unfold clearHold. destruct (holdTimeoutRef s) eqn:E; [reflexivity | exact E].
Qed.

Lemma clearHold_ramp (s : Demo) : rampIntervalRef (clearHold s) = rampIntervalRef s.
Proof. unfold clearHold. destruct (holdTimeoutRef s); reflexivity. Qed.

Lemma clearRamp_owned (s : Demo) : owned s -> owned (clearRamp s).
Proof.
  intros Ho h k Hl. right. rewrite clearRamp_hold. exact (clearRamp_timers s h k Ho Hl).
Qed.

Lemma clearHold_owned (s : Demo) : owned s -> owned (clearHold s).
Proof.
  intros Ho h k Hl. left. rewrite clearHold_ramp. exact (clearHold_timers s h k Ho Hl).
Qed.

(** Once both refs are cleared no timer of the script is left running. *)
Lemma resetPM_timers (s : Demo) : owned s -> timers (resetPM s) = ∅.
Proof.
  intros Ho. unfold resetPM. cbn. apply map_eq. intros h. rewrite lookup_empty.
  destruct (timers (clearHold (clearRamp s)) !! h) as [k|] eqn:E; [|reflexivity].
  apply clearHold_timers in E; [|now apply clearRamp_owned].
  rewrite clearRamp_ref in E. discriminate E.
Qed.

Lemma startPMMode_state (s : Demo) :
  owned s ->
  pm (startPMMode s) = rampingUp /\
  rain (startPMMode s) = 0%Z /\
  didStartHoldRef (startPMMode s) = false /\
  holdTimeoutRef (startPMMode s) = None /\
  rampIntervalRef (startPMMode s) = Some (nextTimer s) /\
  timers (startPMMode s) = {[ nextTimer s := RampUpInterval ]} /\
  nextTimer (startPMMode s) = Pos.succ (nextTimer s) /\
  sent (startPMMode s) = sent s ++ [SCRIPT PM_MODE].
Proof.
  intros Ho. pose proof (resetPM_timers s Ho) as Ht.
  assert (Hn : nextTimer (resetPM s) = nextTimer s).
  { unfold resetPM, clearHold, clearRamp.
    destruct (rampIntervalRef s); cbn; destruct (holdTimeoutRef s); reflexivity. }
  assert (Hs : sent (resetPM s) = sent s).
  { unfold resetPM, clearHold, clearRamp.
    destruct (rampIntervalRef s); cbn; destruct (holdTimeoutRef s); reflexivity. }
  assert (Hh : holdTimeoutRef (resetPM s) = None).
  { unfold resetPM. cbn. apply clearHold_ref. }
  assert (Hd : didStartHoldRef (resetPM s) = false) by reflexivity.
  unfold startPMMode. generalize dependent (resetPM s). intros s0 Ht Hn Hs Hh Hd.
  cbn. rewrite Ht, Hn, Hs, Hh, Hd. repeat split.
Qed.

Lemma startPMMode_owned (s : Demo) : owned s -> owned (startPMMode s).
Proof.
  intros Ho h k Hl.
  destruct (startPMMode_state s Ho) as (_ & _ & _ & _ & Hr & Ht & _).
  rewrite Ht in Hl. apply lookup_singleton_Some in Hl as [<- _].
  left. exact Hr.
Qed.

Lemma rampUpTick_owned (s : Demo) : owned s -> owned (rampUpTick s).
Proof.
  intros Ho. unfold rampUpTick.
  destruct (100 <=? Z.min 100 (rain s + 10))%Z; [|exact Ho].
  exact (clearRamp_owned s Ho).
Qed.

Lemma rampDownTick_owned (s : Demo) : owned s -> owned (rampDownTick s).
Proof.
  intros Ho. unfold rampDownTick.
  destruct (Z.max 0 (rain s - 5) <=? 0)%Z; [|exact Ho].
  exact (clearRamp_owned s Ho).
Qed.

Lemma clearTimer_owned (h : positive) (s : Demo) : owned s -> owned (clearTimer h s).
Proof.
  intros Ho h' k Hl. cbn in *. apply lookup_delete_Some in Hl as [_ Hl].
  exact (Ho h' k Hl).
Qed.

Lemma holdTimeoutFired_owned (h : positive) (s : Demo) :
  owned s -> owned (holdTimeoutFired h s).
Proof.
  intros Ho. unfold holdTimeoutFired.
  pose proof (clearTimer_owned h s Ho) as Ho1.
  assert (Ho2 : owned (setPm rampingDown (clearTimer h s))) by exact Ho1.
  set (s2 := setPm rampingDown (clearTimer h s)) in *.
  intros h' k Hl. cbn in Hl |- *.
  apply lookup_insert_Some in Hl as [[<- _]|[Hne Hl]].
  - left. reflexivity.
  - right. rewrite clearRamp_hold. exact (clearRamp_timers s2 h' k Ho2 Hl).
Qed.

Lemma holdEffect_owned (e : number) (s : Demo) : owned s -> owned (holdEffect e s).
Proof.
  intros Ho. unfold holdEffect.
  destruct (pm s); try exact Ho.
  destruct e as [r|]; [|exact Ho].
  destruct (Rlt_dec 0 r); [exact Ho|].
  destruct (didStartHoldRef s) eqn:Ed; [exact Ho|].
  set (s3 := setRain 100 (setPm holding (setDidStartHoldRef true s))).
  assert (Ho3 : owned s3) by exact Ho.
  intros h' k Hl. cbn in Hl |- *.
  apply lookup_insert_Some in Hl as [[<- _]|[Hne Hl]].
  - right. reflexivity.
  - left. rewrite clearHold_ramp. exact (clearHold_timers s3 h' k Ho3 Hl).
Qed.

Lemma reachable_owned (s : Demo) : reachable s -> owned s.
Proof.
  induction 1 as [|s s' _ IH Hs].
  - intros h k Hl. cbn in Hl. rewrite lookup_empty in Hl. discriminate Hl.
  - destruct Hs.
    + now apply startPMMode_owned.
    + exact IH.
    + now apply rampUpTick_owned.
    + now apply rampDownTick_owned.
    + now apply holdTimeoutFired_owned.
    + now apply holdEffect_owned.
Qed.

End DemoModeScript.

Section Restart.
Import ControlLite.
Local Open Scope Q_scope.

Lemma is_idle_true (p : SimPhase) : is_idle p = true <-> p = idle.
Proof. destruct p; cbn; split; intros; congruence. Qed.

Lemma clickStartDemo_idle (t : Q) (w : World) :
  phase (st w) = idle -> clickStartDemo t w = onStartDemo t w.
Proof. intros E. unfold clickStartDemo. rewrite E. reflexivity. Qed.

Lemma clickStartDemo_busy (t : Q) (w : World) :
  phase (st w) <> idle -> clickStartDemo t w = w.
Proof.
  intros E. unfold clickStartDemo.
  destruct (is_idle (phase (st w))) eqn:Ei; [|reflexivity].
  apply is_idle_true in Ei. contradiction.
Qed.

Lemma clickStartDemo_twice (t1 t2 : Q) (w : World) :
  clickStartDemo t2 (clickStartDemo t1 w) = clickStartDemo t1 w.
Proof.
  destruct (is_idle (phase (st w))) eqn:Ei.
  - apply is_idle_true in Ei. rewrite (clickStartDemo_idle t1 w Ei).
    apply clickStartDemo_busy. cbn. discriminate.
  - assert (Hb : phase (st w) <> idle)
      by (intros E; apply is_idle_true in E; congruence).
    rewrite (clickStartDemo_busy t1 w Hb). exact (clickStartDemo_busy t2 w Hb).
Qed.

(** C4, as stated, fails on the scripted surface: in the peak hold, with
    its timeout pending, two "start demo" clicks are ignored (the button is
    disabled), so the phase is still peakHold and not rampUp; and the
    handler [onStartDemo] itself would leave that timeout pending. *)
Lemma start_demo_in_peak_hold :
  phase (st afterRampUpFallback) = peakHold /\
  peakHoldTimerRef (refs afterRampUpFallback) = Some 1%positive /\
  phase (st (clickStartDemo 61001 (clickStartDemo 61000 afterRampUpFallback)))
    <> rampUp /\
  peakHoldTimerRef (refs (onStartDemo 61000 afterRampUpFallback)) = Some 1%positive /\
  timers (win (onStartDemo 61000 afterRampUpFallback)) !! 1%positive
    = Some PeakHoldTimeout.
Proof.
  assert (Hp : phase (st afterRampUpFallback) = peakHold) by (vm_compute; reflexivity).
  split; [exact Hp|].
  split; [vm_compute; reflexivity|].
  split.
  - rewrite clickStartDemo_twice, clickStartDemo_busy; rewrite Hp; discriminate.
  - split; vm_compute; reflexivity.
Qed.

(** C4, amended.  On the scripted surface "start demo" is accepted only in
    the idle phase: there it enters rampUp, clears the ETA display, the
    DANGER alert flag and the danger stopwatch, and starts the ramp-up
    stopwatch, leaving the timer handles as they were; in any other phase it
    is ignored.  So two clicks in a row leave the same state as one.  On the
    manual surface "Demo Mode" is accepted in any state: it clears the ramp
    interval and the hold timeout and the hold flag, sets rain to 0 and
    enters rampingUp with exactly one live timer, a fresh ramp-up interval;
    a second click gives the same state again, with a newer interval.
    The handler [onStartDemo] run twice equals its second run alone. *)
Theorem start_demo_restart :
  (forall (t1 t2 : Q) (w : World),
      clickStartDemo t2 (clickStartDemo t1 w) = clickStartDemo t1 w) /\
  (forall (t1 t2 : Q) (w : World),
      onStartDemo t2 (onStartDemo t1 w) = onStartDemo t2 w) /\
  (forall (t : Q) (w : World),
      phase (st w) = idle ->
      phase (st (clickStartDemo t w)) = rampUp /\
      etaSeconds (st (clickStartDemo t w)) = None /\
      etaNow (st (clickStartDemo t w)) = false /\
      dangerAlertedRef (refs (clickStartDemo t w)) = false /\
      dangerSinceRef (refs (clickStartDemo t w)) = None /\
      rampUpSinceRef (refs (clickStartDemo t w)) = Some t /\
      countdownTimerRef (refs (clickStartDemo t w)) = countdownTimerRef (refs w) /\
      peakHoldTimerRef (refs (clickStartDemo t w)) = peakHoldTimerRef (refs w) /\
      win (clickStartDemo t w) = win w) /\
  (forall (t : Q) (w : World),
      phase (st w) <> idle -> clickStartDemo t w = w) /\
  (forall s : Control.Demo,
      Control.reachable s ->
      Control.pm (Control.startPMMode s) = Control.rampingUp /\
      Control.rain (Control.startPMMode s) = 0%Z /\
      Control.didStartHoldRef (Control.startPMMode s) = false /\
      Control.holdTimeoutRef (Control.startPMMode s) = None /\
      Control.rampIntervalRef (Control.startPMMode s) = Some (Control.nextTimer s) /\
      Control.timers (Control.startPMMode s)
        = {[ Control.nextTimer s := Control.RampUpInterval ]} /\
      Control.pm (Control.startPMMode (Control.startPMMode s)) = Control.rampingUp /\
      Control.rain (Control.startPMMode (Control.startPMMode s)) = 0%Z /\
      Control.didStartHoldRef (Control.startPMMode (Control.startPMMode s)) = false /\
      Control.holdTimeoutRef (Control.startPMMode (Control.startPMMode s)) = None /\
      Control.rampIntervalRef (Control.startPMMode (Control.startPMMode s))
        = Some (Pos.succ (Control.nextTimer s)) /\
      Control.timers (Control.startPMMode (Control.startPMMode s))
        = {[ Pos.succ (Control.nextTimer s) := Control.RampUpInterval ]}).
Proof.
  split; [exact clickStartDemo_twice|].
  split; [reflexivity|].
  split.
  { intros t w E. rewrite (clickStartDemo_idle t w E). cbn. repeat split. }
  split; [exact clickStartDemo_busy|].
  intros s Hr. apply reachable_owned in Hr.
  destruct (startPMMode_state s Hr) as (H1 & H2 & H3 & H4 & H5 & H6 & H7 & _).
  destruct (startPMMode_state _ (startPMMode_owned s Hr))
    as (K1 & K2 & K3 & K4 & K5 & K6 & _).
  rewrite H7 in K5, K6.
  repeat split; assumption.
Qed.

Lemma start_demo_restart_witness :
  phase (st (clickStartDemo 0 initial)) = rampUp /\
  clickStartDemo 7 afterRampUpFallback = afterRampUpFallback /\
  Control.timers (Control.startPMMode (Control.startPMMode Control.initial))
    = {[ 2%positive := Control.RampUpInterval ]}.
Proof.
  destruct start_demo_restart as (_ & _ & Hidle & Hbusy & Hpm).
  split; [apply (Hidle 0 initial); reflexivity|].
  split; [apply (Hbusy 7 afterRampUpFallback); vm_compute; discriminate|].
  apply (Hpm Control.initial Control.reach_initial).
Defined.

End Restart.

(** ** The SUBSIDING override *)

Section Subsiding.
Import ControlLite.
Local Open Scope Q_scope.

Lemma stageEffect_subsiding (snap : View) (w : World) :
  phase (st w) = phase snap -> pendingSubsiding snap (stageEffect snap w).
Proof.
  intros Hq Hs. rewrite stageEffect_stage in Hs. rewrite stageEffect_phase.
  destruct (is_rampDown (phase snap)) eqn:Ep, (close (S_ snap)); cbn in Hs |- *;
    try (exfalso; revert Hs; apply bucket_spec).
  apply is_rampDown_true in Ep. split; [exact Ep | congruence].
Qed.

Lemma peakHoldEffect_subsiding (now : Q) (snap : View) (w : World) :
  pendingSubsiding snap w -> pendingSubsiding snap (peakHoldEffect now snap w).
Proof.
  unfold peakHoldEffect. intros H.
  destruct (is_rampUp (phase snap)) eqn:Ep; [|exact H]. cbn [negb orb].
  destruct (negb (is_null (peakHoldTimerRef (refs w)))); [exact H|].
  match goal with |- context [if ?c then _ else _] => destruct c end; [|exact H].
  intros Hs. cbn in Hs. destruct (H Hs) as [Hd _].
  rewrite Hd in Ep. discriminate Ep.
Qed.

Lemma commit_subsiding (now : Q) (run : Effect -> bool) (w : World) :
  subsidingInv (st w) -> subsidingInv (st (commit now run w)).
Proof.
  intros H. unfold commit, effects. cbn [fold_left runEffect].
  assert (P0 : pendingSubsiding (st w) w) by (intros Hs; split; exact (H Hs)).
  set (w1 := if run EffSmooth then smoothEffect (st w) w else w).
  assert (Q1 : phase (st w1) = phase (st w))
    by (unfold w1; destruct (run EffSmooth); reflexivity).
  assert (P1 : pendingSubsiding (st w) w1)
    by (unfold w1; destruct (run EffSmooth); exact P0).
  set (w2 := if run EffStage then stageEffect (st w) w1 else w1).
  assert (P2 : pendingSubsiding (st w) w2)
    by (unfold w2; destruct (run EffStage);
        [now apply stageEffect_subsiding | exact P1]).
  set (w3 := if run EffEta then etaEffect (st w) w2 else w2).
  assert (E3 : stage (st w3) = stage (st w2) /\ phase (st w3) = phase (st w2)).
  { unfold w3. destruct (run EffEta); [|split; reflexivity].
    unfold etaEffect.
    repeat match goal with
           | |- context [if ?c then _ else _] => destruct c
           end;
      repeat (first [rewrite clearCountdown_st | progress cbn]);
      split; reflexivity. }
  assert (P3 : pendingSubsiding (st w) w3).
  { unfold pendingSubsiding. destruct E3 as [-> ->]. exact P2. }
  set (w4 := if run EffDangerAlert then dangerAlertEffect (st w) w3 else w3).
  assert (P4 : pendingSubsiding (st w) w4).
  { unfold w4, dangerAlertEffect. destruct (run EffDangerAlert); [|exact P3].
    destruct (negb (dangerAlertedRef (refs w3)) && is_danger (stage (st w))); exact P3. }
  set (w5 := if run EffDangerSince then dangerSinceEffect now (st w) w4 else w4).
  assert (P5 : pendingSubsiding (st w) w5).
  { unfold w5, dangerSinceEffect. destruct (run EffDangerSince); [|exact P4].
    destruct (is_rampUp (phase (st w)) && is_danger (stage (st w))),
             (is_null (dangerSinceRef (refs w4))); exact P4. }
  assert (P6 : pendingSubsiding (st w)
                 (if run EffPeakHold then peakHoldEffect now (st w) w5 else w5))
    by (destruct (run EffPeakHold); [now apply peakHoldEffect_subsiding | exact P5]).
  intros Hs. exact (proj2 (P6 Hs)).
Qed.

Lemma step_subsiding (Math_pow : Q -> Q -> Q) (w w' : World) :
  step Math_pow w w' -> subsidingInv (st w) -> subsidingInv (st w').
Proof.
  intros Hs H. destruct Hs.
  - now apply commit_subsiding.
  - exact H.
  - exact H.
  - intros _. reflexivity.
  - unfold clickStartDemo. destruct (is_idle (phase (st w))) eqn:Ei; [|exact H].
    intros Hst. cbn in Hst. apply H in Hst.
    apply is_idle_true in Ei. congruence.
Qed.

Lemma reachable_subsiding (Math_pow : Q -> Q -> Q) (w : World) :
  reachable Math_pow w -> statusLabel (st w) = SUBSIDING -> phase (st w) = rampDown.
Proof.
  intros Hr Hl. apply statusLabel_SUBSIDING in Hl. revert Hl.
  change (subsidingInv (st w)).
  induction Hr as [|w w' _ IH Hs].
  - intros Hs. discriminate Hs.
  - exact (step_subsiding Math_pow w w' Hs IH).
Qed.

(** C6: after the stage effect has run, the label is SUBSIDING exactly
    when the phase is rampDown and some tracked metric is outside its
    tolerance of the baseline; when the phase is rampDown and every tracked
    metric is within tolerance, the phase becomes idle and the label is the
    bucket of the rounded likelihood.  In every state the surface can reach,
    SUBSIDING is shown only in the rampDown phase. *)
Theorem subsiding_override (snap : View) (w : World) :
  (statusLabel (st (stageEffect snap w)) = SUBSIDING <->
   phase snap = rampDown /\ exists m, outside m (S_ snap)) /\
  (phase snap = rampDown ->
   (forall m, ~ outside m (S_ snap)) ->
   phase (st (stageEffect snap w)) = idle /\
   statusLabel (st (stageEffect snap w))
     = stageToStatusLabel (bucket (Math_round (lk snap)))) /\
  (forall (Math_pow : Q -> Q -> Q) (w0 : World),
      reachable Math_pow w0 ->
      statusLabel (st w0) = SUBSIDING -> phase (st w0) = rampDown).
Proof.
  split; [|split]; [| |exact reachable_subsiding].
  - rewrite statusLabel_SUBSIDING, stageEffect_stage, <- close_false,
      <- is_rampDown_true.
    destruct (is_rampDown (phase snap)), (close (S_ snap)); cbn;
      pose proof (bucket_spec (Math_round (lk snap))) as (_ & _ & _ & _ & Hns);
      split; intros; try tauto; try congruence; intuition congruence.
  - intros Hp Hin.
    assert (Hc : close (S_ snap) = true).
    { destruct (close (S_ snap)) eqn:E; [reflexivity|].
      apply close_false in E. destruct E as [m Hm]. destruct (Hin m Hm). }
    apply is_rampDown_true in Hp.
    rewrite stageEffect_phase, Hp, Hc. split; [reflexivity|].
    rewrite statusLabel_bucket; rewrite stageEffect_stage, Hp, Hc; cbn;
      [reflexivity | apply bucket_spec].
Qed.

Lemma subsiding_override_witness :
  (phase (st (stageEffect (mkView rampDown 0 BASE 12 subsiding None false) initial))
     = idle /\
   statusLabel (st (stageEffect (mkView rampDown 0 BASE 12 subsiding None false) initial))
     = NORMAL) /\
  statusLabel (st earlyRampDown) = SUBSIDING /\
  phase (st earlyRampDown) = rampDown.
Proof.
  destruct (subsiding_override (mkView rampDown 0 BASE 12 subsiding None false) initial)
    as (_ & Hidle & Hreach).
  split; [|split].
  - apply Hidle.
    + reflexivity.
    + intros m Hm.
      assert (E : close BASE = false) by (apply close_false; exists m; exact Hm).
      vm_compute in E. discriminate E.
  - vm_compute. reflexivity.
  - apply (Hreach powAtEnds earlyRampDown).
    + unfold earlyRampDown, afterRampUpFallback.
      eapply reach_step; [|apply step_commit].
      eapply reach_step; [|apply (step_peakHoldFired powAtEnds 1%positive);
                           vm_compute; reflexivity].
      eapply reach_step;
        [|apply step_tick; intros m; destruct m; split; vm_compute;
          first [discriminate | reflexivity]].
      eapply reach_step; [|apply step_commit].
      eapply reach_step; [apply reach_initial | apply step_click].
    + vm_compute. reflexivity.
Defined.

End Subsiding.

(** ** Late subscribers *)

Section Transport.
Import SensorBus.










End Transport.

(** ** Sanitising incoming snapshots *)

Section Sanitiser.
Import SkyOv.
Local Open Scope Q_scope.

Lemma Qmax_inject_Z (a b : Z) : Qmax (inject_Z a) (inject_Z b) = inject_Z (Z.max a b).
Proof.
  unfold Qmax, GenericMinMax.gmax, Qcompare, inject_Z. cbn [Qnum Qden].
  rewrite !Z.mul_1_r. unfold Z.max. destruct (a ?= b)%Z; reflexivity.
Qed.

Lemma Qmin_inject_Z (a b : Z) : Qmin (inject_Z a) (inject_Z b) = inject_Z (Z.min a b).
Proof.
  unfold Qmin, GenericMinMax.gmin, Qcompare, inject_Z. cbn [Qnum Qden].
  rewrite !Z.mul_1_r. unfold Z.min. destruct (a ?= b)%Z; reflexivity.
Qed.

Lemma clamp_pct (q : Q) :
  Math_min (Num 100) (Math_max (Num 0) (Math_round (Num q)))
    = Num (inject_Z (Z.min 100 (Z.max 0 (Qfloor (q + 0.5))))).
Proof.
  cbn [Math_round Math_max Math_min].
  change 0 with (inject_Z 0). change 100 with (inject_Z 100).
  now rewrite Qmax_inject_Z, Qmin_inject_Z.
Qed.

Lemma clamp_eta (q : Q) :
  Math_max (Num 0) (Math_floor (Num q)) = Num (inject_Z (Z.max 0 (Qfloor q))).
Proof.
  cbn [Math_floor Math_max]. change 0 with (inject_Z 0).
  now rewrite Qmax_inject_Z.
Qed.

(** [Number(null)] is 0, so a [null] field counts as a finite reading. *)
Example normalizeSky_null_fields :
  normalizeSky (fun _ => NaN) (Some (mkIncoming JNull JNull JNull)) initialSky
  = mkSkyData (Num 0) (Num 0) (Some "NORMAL"%string).
Proof. reflexivity. Qed.

(** C9, as stated, fails: a likelihood of 150 and an ETA of -5 are out of
    range, yet they do not fall back to the previous 10 and 600; they are
    clamped to 100 and 0.  (No field is a string, so the string parser
    passed here is never consulted.) *)
Lemma out_of_range_is_clamped :
  normalizeSky (fun _ => NaN)
    (Some (mkIncoming (JNumber (Num 150)) (JNumber (Num (-5))) JUndefined))
    initialSky
  = mkSkyData (Num 100) (Num 0) (Some "NORMAL"%string) /\
  floodLikelihoodPct initialSky = Num 10 /\
  etaSeconds initialSky = Num 600.
Proof. repeat split. Qed.

(** C9, amended: each field is coerced on its own.  A numeric field whose
    coercion is not finite falls back to the previous value.  A finite one
    is never rejected: the likelihood is rounded and clamped into
    [0, 100], the ETA is floored and clamped to at least 0.  So, from a
    previous snapshot with finite fields, the result has finite fields. *)
Theorem normalizeSky_fields
    (StringToNumber : string -> jsnum) (input : option Incoming) (prev : SkyData) :
  let pct := Number StringToNumber (field in_floodLikelihoodPct input) in
  let eta := Number StringToNumber (field in_etaSeconds input) in
  let r := normalizeSky StringToNumber input prev in
  (Number_isFinite pct = false -> floodLikelihoodPct r = floodLikelihoodPct prev) /\
  (forall q, pct = Num q ->
     floodLikelihoodPct r = Num (inject_Z (Z.min 100 (Z.max 0 (Qfloor (q + 0.5)))))) /\
  (Number_isFinite eta = false -> etaSeconds r = etaSeconds prev) /\
  (forall q, eta = Num q -> etaSeconds r = Num (inject_Z (Z.max 0 (Qfloor q)))) /\
  (Number_isFinite (floodLikelihoodPct prev) = true ->
   Number_isFinite (floodLikelihoodPct r) = true) /\
  (Number_isFinite (etaSeconds prev) = true ->
   Number_isFinite (etaSeconds r) = true).
Proof.
  intros pct eta r. unfold r, normalizeSky. fold pct. fold eta.
  cbn [floodLikelihoodPct etaSeconds].
  repeat split.
  - intros ->. reflexivity.
  - intros q ->. cbn [Number_isFinite]. apply clamp_pct.
  - intros ->. reflexivity.
  - intros q ->. cbn [Number_isFinite]. apply clamp_eta.
  - intros Hp. destruct pct as [q| | |]; cbn [Number_isFinite]; try exact Hp.
    rewrite clamp_pct. reflexivity.
  - intros Hp. destruct eta as [q| | |]; cbn [Number_isFinite]; try exact Hp.
    rewrite clamp_eta. reflexivity.
Qed.

Lemma normalizeSky_fields_witness :
  floodLikelihoodPct
    (normalizeSky (fun _ => NaN)
       (Some (mkIncoming (JNumber NaN) (JNumber (Num 12.7)) JUndefined)) initialSky)
    = Num 10 /\
  etaSeconds
    (normalizeSky (fun _ => NaN)
       (Some (mkIncoming (JNumber NaN) (JNumber (Num 12.7)) JUndefined)) initialSky)
    = Num 12.
Proof.
  pose proof (normalizeSky_fields (fun _ => NaN)
                (Some (mkIncoming (JNumber NaN) (JNumber (Num 12.7)) JUndefined))
                initialSky) as (Hp & _ & _ & He & _).
  split.
  - apply Hp. reflexivity.
  - apply (He 12.7). reflexivity.
Defined.

(** C10: a string in the status field is taken over unchanged, whatever
    the string; any other value keeps the previous status. *)
Theorem normalizeSky_status
    (StringToNumber : string -> jsnum) (input : option Incoming) (prev : SkyData) :
  (forall s : string,
      field in_status input = JString s ->
      status (normalizeSky StringToNumber input prev) = Some s) /\
  ((forall s : string, field in_status input <> JString s) ->
   status (normalizeSky StringToNumber input prev) = status prev).
Proof.
  unfold normalizeSky. cbn [status]. split.
  - intros s ->. reflexivity.
  - intros Hn. destruct (field in_status input) as [| |b|n|s]; try reflexivity.
    destruct (Hn s eq_refl).
Qed.

Lemma normalizeSky_status_witness :
  status (normalizeSky (fun _ => NaN)
            (Some (mkIncoming JUndefined JUndefined (JString "EVACUATE")))
            initialSky)
    = Some "EVACUATE"%string /\
  status (normalizeSky (fun _ => NaN)
            (Some (mkIncoming JUndefined JUndefined (JNumber (Num 3))))
            initialSky)
    = Some "NORMAL"%string.
Proof.
  split.
  - apply (proj1 (normalizeSky_status (fun _ => NaN)
                    (Some (mkIncoming JUndefined JUndefined (JString "EVACUATE")))
                    initialSky)).
    reflexivity.
  - apply (proj2 (normalizeSky_status (fun _ => NaN)
                    (Some (mkIncoming JUndefined JUndefined (JNumber (Num 3))))
                    initialSky)).
    intros s. discriminate.
Defined.

End Sanitiser.

(* ================================================================== *)
(** * Further properties                                                *)
(* ================================================================== *)

(** ** The closed form against the tick-by-tick level *)

Section EtaClosedForm.
Import Control.
Local Open Scope R_scope.

Lemma ln_ease_neg : ln (1 - ALPHA_level) < 0.
Proof.
  unfold ALPHA_level. rewrite <- ln_1. apply ln_increasing; lra.
Qed.

Lemma ratio_bounds (cur tgt : R) :
  cur < FLOOD_LEVEL -> FLOOD_LEVEL < tgt ->
  0 < (tgt - FLOOD_LEVEL) / (tgt - cur) < 1.
Proof.
  unfold FLOOD_LEVEL. intros Hc Ht. split.
  - apply Rdiv_lt_0_compat; lra.
  - apply (Rmult_lt_reg_r (tgt - cur)); [lra|].
    unfold Rdiv. rewrite Rmult_assoc, Rinv_l; lra.
Qed.

(** Below the flood level, with the target above it, the predictor returns
    the positive solution of the easing recurrence. *)
Lemma eta_below (cur tgt : R) :
  cur < FLOOD_LEVEL -> FLOOD_LEVEL < tgt ->
  etaToFloodSeconds cur tgt =
    Finite (ln ((tgt - FLOOD_LEVEL) / (tgt - cur)) / ln (1 - ALPHA_level)
            * (TICK_MS / 1000)) /\
  0 < ln ((tgt - FLOOD_LEVEL) / (tgt - cur)) / ln (1 - ALPHA_level).
Proof.
  intros Hc Ht. pose proof (ratio_bounds cur tgt Hc Ht) as [Hr0 Hr1].
  pose proof ln_ease_neg as Hq.
  assert (Hl : ln ((tgt - FLOOD_LEVEL) / (tgt - cur)) < 0)
    by (rewrite <- ln_1; now apply ln_increasing).
  assert (Hn : 0 < ln ((tgt - FLOOD_LEVEL) / (tgt - cur)) / ln (1 - ALPHA_level)).
  { unfold Rdiv at 1.
    replace (ln ((tgt - FLOOD_LEVEL) / (tgt - cur)) * / ln (1 - ALPHA_level))
      with ((- ln ((tgt - FLOOD_LEVEL) / (tgt - cur))) * / (- ln (1 - ALPHA_level)))
      by (field; lra).
    apply Rmult_lt_0_compat; [lra|]. apply Rinv_0_lt_compat. lra. }
  split; [|exact Hn].
  unfold etaToFloodSeconds.
  destruct (Rle_dec (tgt - FLOOD_LEVEL) 0) as [H|_]; [lra|].
  destruct (Rle_dec (tgt - cur) (tgt - FLOOD_LEVEL)) as [H|_]; [lra|].
  f_equal. apply Rmax_right. unfold TICK_MS.
  apply Rmult_le_pos; lra.
Qed.

(** X1: the predictor answers "no event expected" (positive infinity)
    exactly when the target level is at or below the flood level; every
    finite answer is non-negative, and, with the target above the flood
    level, the answer is 0 exactly when the current level has reached it. *)
Theorem eta_answers (cur tgt : R) :
  (etaToFloodSeconds cur tgt = POSITIVE_INFINITY <-> tgt <= FLOOD_LEVEL) /\
  (forall e, etaToFloodSeconds cur tgt = Finite e -> 0 <= e) /\
  (FLOOD_LEVEL < tgt ->
   (etaToFloodSeconds cur tgt = Finite 0 <-> FLOOD_LEVEL <= cur)).
Proof.
  split; [|split].
  - split.
    + intros E. destruct (Rle_dec tgt FLOOD_LEVEL) as [H|H]; [exact H|].
      destruct (Rle_dec FLOOD_LEVEL cur) as [Hc|Hc].
      * rewrite eta_crossed in E; [discriminate E | lra | exact Hc].
      * destruct (eta_below cur tgt) as [E' _]; [lra | lra |].
        rewrite E' in E. discriminate E.
    + apply eta_target_not_above.
  - intros e E. unfold etaToFloodSeconds in E.
    destruct (Rle_dec (tgt - FLOOD_LEVEL) 0); [discriminate E|].
    destruct (Rle_dec (tgt - cur) (tgt - FLOOD_LEVEL)); injection E as <-.
    + lra.
    + apply Rmax_l.
  - intros Ht. split.
    + intros E. destruct (Rle_dec FLOOD_LEVEL cur) as [Hc|Hc]; [exact Hc|].
      destruct (eta_below cur tgt) as [E' Hn]; [lra | lra |].
      rewrite E' in E. injection E as E. unfold TICK_MS in E. lra.
    + intros Hc. now apply eta_crossed.
Qed.

Lemma eta_answers_witness :
  etaToFloodSeconds (1 / 2) 2 <> Finite 0 /\
  etaToFloodSeconds (1 / 2) 2 <> POSITIVE_INFINITY.
Proof.
  destruct (eta_answers (1 / 2) 2) as (Hinf & _ & Hzero).
  split.
  - intros E. apply Hzero in E; unfold FLOOD_LEVEL in *; lra.
  - intros E. apply Hinf in E. unfold FLOOD_LEVEL in E. lra.
Defined.

(** X2: with the target above the flood level, the estimate never grows as
    the current level rises toward it. *)
Theorem eta_decreases_toward_flood (cur1 cur2 tgt : R) :
  FLOOD_LEVEL < tgt -> cur1 <= cur2 ->
  exists e1 e2,
    etaToFloodSeconds cur1 tgt = Finite e1 /\
    etaToFloodSeconds cur2 tgt = Finite e2 /\
    e2 <= e1.
Proof.
  intros Ht Hle.
  destruct (Rle_dec FLOOD_LEVEL cur2) as [H2|H2].
  - destruct (Rle_dec FLOOD_LEVEL cur1) as [H1|H1].
    + exists 0, 0. rewrite !eta_crossed; auto. repeat split; lra.
    + destruct (eta_below cur1 tgt) as [E1 Hn]; [lra | lra |].
      eexists _, 0. rewrite E1, eta_crossed by assumption.
      repeat split. unfold TICK_MS. apply Rmult_le_pos; lra.
  - assert (H1 : cur1 < FLOOD_LEVEL) by lra.
    destruct (eta_below cur1 tgt) as [E1 _]; [lra | lra |].
    destruct (eta_below cur2 tgt) as [E2 _]; [lra | lra |].
    eexists _, _. rewrite E1, E2. repeat split.
    apply Rmult_le_compat_r; [unfold TICK_MS; lra|].
    pose proof ln_ease_neg as Hq.
    pose proof (ratio_bounds cur1 tgt H1 Ht) as [Ha0 _].
    pose proof (ratio_bounds cur2 tgt ltac:(lra) Ht) as [Hb0 _].
    assert (Hr : (tgt - FLOOD_LEVEL) / (tgt - cur1) <= (tgt - FLOOD_LEVEL) / (tgt - cur2)).
    { unfold Rdiv. apply Rmult_le_compat_l; [unfold FLOOD_LEVEL in *; lra|].
      apply Rinv_le_contravar; unfold FLOOD_LEVEL in *; lra. }
    assert (Hl : ln ((tgt - FLOOD_LEVEL) / (tgt - cur1))
                 <= ln ((tgt - FLOOD_LEVEL) / (tgt - cur2))).
    { destruct Hr as [Hr|Hr]; [left; now apply ln_increasing | rewrite Hr; lra]. }
    unfold Rdiv.
    replace (ln ((tgt - FLOOD_LEVEL) * / (tgt - cur2)) * / ln (1 - ALPHA_level))
      with ((- ln ((tgt - FLOOD_LEVEL) * / (tgt - cur2))) * / (- ln (1 - ALPHA_level)))
      by (field; lra).
    replace (ln ((tgt - FLOOD_LEVEL) * / (tgt - cur1)) * / ln (1 - ALPHA_level))
      with ((- ln ((tgt - FLOOD_LEVEL) * / (tgt - cur1))) * / (- ln (1 - ALPHA_level)))
      by (field; lra).
    apply Rmult_le_compat_r; [left; apply Rinv_0_lt_compat; lra|].
    unfold Rdiv in Hl. lra.
Qed.

Lemma eta_decreases_toward_flood_witness :
  exists e1 e2,
    etaToFloodSeconds (1 / 2) 2 = Finite e1 /\
    etaToFloodSeconds (3 / 4) 2 = Finite e2 /\
    e2 <= e1.
Proof.
  apply (eta_decreases_toward_flood (1 / 2) (3 / 4) 2); unfold FLOOD_LEVEL; lra.
Defined.





End EtaClosedForm.

(** ** The Demo Mode script, tick by tick *)

Section DemoCycle.
Import Control.

Lemma startPMMode_shape (s : Demo) :
  owned s ->
  startPMMode s =
    mkDemo 0 rampingUp (Some (nextTimer s)) None false
           {[ nextTimer s := RampUpInterval ]} (Pos.succ (nextTimer s))
           (sent s ++ [SCRIPT PM_MODE]).
Proof.
  intros Ho.
  destruct (startPMMode_state s Ho) as (H1 & H2 & H3 & H4 & H5 & H6 & H7 & H8).
  destruct (startPMMode s). cbn in *. now subst.
Qed.

Lemma rampUpTicks_early (k : nat) (h next : positive) (out : list FloodAction) :
  (k < 10)%nat ->
  rampUpTicks k (mkDemo 0 rampingUp (Some h) None false {[ h := RampUpInterval ]} next out)
  = mkDemo (10 * Z.of_nat k) rampingUp (Some h) None false
           {[ h := RampUpInterval ]} next out.
Proof.
  unfold rampUpTicks. induction k as [|k IH]; intros Hk.
  - reflexivity.
  - rewrite Nat.iter_succ, IH by lia. unfold rampUpTick. cbn [rain].
    assert (E : Z.min 100 (10 * Z.of_nat k + 10) = (10 * Z.of_nat (S k))%Z) by lia.
    rewrite E.
    destruct (Z.leb_spec 100 (10 * Z.of_nat (S k))) as [H|H]; [lia|].
    reflexivity.
Qed.

Lemma rampUpTicks_ten (h next : positive) (out : list FloodAction) :
  rampUpTicks 10 (mkDemo 0 rampingUp (Some h) None false {[ h := RampUpInterval ]} next out)
  = mkDemo 100 waitingFlood None None false ∅ next out.
Proof.
  change 10%nat with (S 9). unfold rampUpTicks. rewrite Nat.iter_succ.
  fold (rampUpTicks 9 (mkDemo 0 rampingUp (Some h) None false
                               {[ h := RampUpInterval ]} next out)).
  rewrite rampUpTicks_early by lia.
  unfold rampUpTick, clearRamp, clearTimer, setRampIntervalRef, setPm, setRain.
  cbn. now rewrite delete_singleton_eq.
Qed.

(** X4: after "Demo Mode" is pressed, the ramp interval raises rain by 10
    per firing: after [k < 10] firings rain is [10 k], the script is still
    ramping up and its interval is the only live timer; the tenth firing
    reaches 100, clears the interval and waits for the flood. *)
Theorem ramp_up_takes_ten_ticks (s : Demo) (k : nat) :
  reachable s ->
  ((k < 10)%nat ->
   rain (rampUpTicks k (startPMMode s)) = (10 * Z.of_nat k)%Z /\
   pm (rampUpTicks k (startPMMode s)) = rampingUp /\
   timers (rampUpTicks k (startPMMode s)) = {[ nextTimer s := RampUpInterval ]}) /\
  rain (rampUpTicks 10 (startPMMode s)) = 100%Z /\
  pm (rampUpTicks 10 (startPMMode s)) = waitingFlood /\
  rampIntervalRef (rampUpTicks 10 (startPMMode s)) = None /\
  timers (rampUpTicks 10 (startPMMode s)) = ∅.
Proof.
  intros Hr. apply reachable_owned in Hr.
  rewrite (startPMMode_shape s Hr). split.
  - intros Hk. rewrite rampUpTicks_early by exact Hk. repeat split.
  - rewrite rampUpTicks_ten. repeat split.
Qed.

Lemma ramp_up_takes_ten_ticks_witness :
  rain (rampUpTicks 10 (startPMMode initial)) = 100%Z /\
  pm (rampUpTicks 10 (startPMMode initial)) = waitingFlood.
Proof.
  destruct (ramp_up_takes_ten_ticks initial 0 reach_initial) as (_ & Hr & Hp & _).
  split; assumption.
Defined.

Lemma rampDownTicks_early (k : nat) (h next : positive) (hold : option positive)
    (out : list FloodAction) :
  (k < 20)%nat ->
  rampDownTicks k (mkDemo 100 rampingDown (Some h) hold true
                          {[ h := RampDownInterval ]} next out)
  = mkDemo (100 - 5 * Z.of_nat k) rampingDown (Some h) hold true
           {[ h := RampDownInterval ]} next out.
Proof.
  unfold rampDownTicks. induction k as [|k IH]; intros Hk.
  - reflexivity.
  - rewrite Nat.iter_succ, IH by lia. unfold rampDownTick. cbn [rain].
    assert (E : Z.max 0 (100 - 5 * Z.of_nat k - 5) = (100 - 5 * Z.of_nat (S k))%Z) by lia.
    rewrite E.
    destruct (Z.leb_spec (100 - 5 * Z.of_nat (S k)) 0) as [H|H]; [lia|].
    reflexivity.
Qed.

Lemma rampDownTicks_twenty (h next : positive) (hold : option positive)
    (out : list FloodAction) :
  rampDownTicks 20 (mkDemo 100 rampingDown (Some h) hold true
                           {[ h := RampDownInterval ]} next out)
  = mkDemo 0 idle None hold false ∅ next (out ++ [SCRIPT STOP]).
Proof.
  change 20%nat with (S 19). unfold rampDownTicks. rewrite Nat.iter_succ.
  fold (rampDownTicks 19 (mkDemo 100 rampingDown (Some h) hold true
                                 {[ h := RampDownInterval ]} next out)).
  rewrite rampDownTicks_early by lia.
  unfold rampDownTick, clearRamp, clearTimer, setRampIntervalRef, setPm, setRain,
    setDidStartHoldRef, send.
  cbn. now rewrite delete_singleton_eq.
Qed.

(** The state in which the script waits for the flood. *)
Lemma holdEffect_fires (e : R) (next : positive) (out : list FloodAction) :
  (e <= 0)%R ->
  holdEffect (Finite e) (mkDemo 100 waitingFlood None None false ∅ next out)
  = mkDemo 100 holding None (Some next) true {[ next := HoldTimeout ]}
           (Pos.succ next) out.
Proof.
  intros He. unfold holdEffect. cbn [pm didStartHoldRef].
  destruct (Rlt_dec 0 e) as [H|_]; [lra|].
  unfold clearHold, startTimer, setHoldTimeoutRef, setRain, setPm, setDidStartHoldRef.
  cbn. now rewrite insert_empty.
Qed.

Lemma holdTimeoutFired_shape (h next : positive) (out : list FloodAction) :
  holdTimeoutFired h (mkDemo 100 holding None (Some h) true {[ h := HoldTimeout ]} next out)
  = mkDemo 100 rampingDown (Some next) (Some h) true
           {[ next := RampDownInterval ]} (Pos.succ next) out.
Proof.
  unfold holdTimeoutFired, clearTimer, clearRamp, startTimer, setRampIntervalRef, setPm.
  cbn. now rewrite delete_singleton_eq, insert_empty.
Qed.

(** X5: a whole Demo Mode cycle.  From any reachable state: the click, ten
    ramp-up firings, the hold starting once the ETA is 0, the hold timeout,
    and twenty ramp-down firings (5 per firing) end in the idle state with
    rain 0, no live timer, the hold flag cleared, and exactly PM_MODE then
    STOP posted; and this is a run of the script. *)
Theorem demo_cycle_returns_to_idle (s : Demo) :
  reachable s ->
  let hold := Pos.succ (nextTimer s) in
  let s' :=
    rampDownTicks 20
      (holdTimeoutFired hold
         (holdEffect (Finite 0) (rampUpTicks 10 (startPMMode s)))) in
  reachable s' /\
  pm s' = idle /\ rain s' = 0%Z /\ timers s' = ∅ /\
  rampIntervalRef s' = None /\ didStartHoldRef s' = false /\
  sent s' = sent s ++ [SCRIPT PM_MODE; SCRIPT STOP].
Proof.
  intros Hr hold s'. pose proof (reachable_owned s Hr) as Ho.
  assert (R1 : forall k, (k <= 10)%nat -> reachable (rampUpTicks k (startPMMode s))).
  { induction k as [|k IH]; intros Hk.
    - eapply reach_step; [exact Hr | apply step_start].
    - unfold rampUpTicks. rewrite Nat.iter_succ.
      eapply reach_step; [apply IH; lia|].
      apply (step_rampUp (nextTimer s)).
      fold (rampUpTicks k (startPMMode s)).
      rewrite (startPMMode_shape s Ho), rampUpTicks_early by lia.
      cbn. apply lookup_singleton_eq. }
  assert (E2 : holdEffect (Finite 0) (rampUpTicks 10 (startPMMode s))
               = mkDemo 100 holding None (Some hold) true {[ hold := HoldTimeout ]}
                        (Pos.succ hold) (sent s ++ [SCRIPT PM_MODE])).
  { rewrite (startPMMode_shape s Ho), rampUpTicks_ten.
    apply holdEffect_fires. lra. }
  assert (R2 : reachable (holdEffect (Finite 0) (rampUpTicks 10 (startPMMode s))))
    by (eapply reach_step; [apply (R1 10%nat); lia | apply step_holdEffect]).
  assert (R3 : reachable (holdTimeoutFired hold
                            (holdEffect (Finite 0) (rampUpTicks 10 (startPMMode s))))).
  { eapply reach_step; [exact R2|]. apply step_holdFired.
    rewrite E2. cbn. apply lookup_singleton_eq. }
  rewrite E2, holdTimeoutFired_shape in R3.
  assert (R4 : forall k, (k <= 20)%nat ->
                 reachable (rampDownTicks k
                   (mkDemo 100 rampingDown (Some (Pos.succ hold)) (Some hold) true
                           {[ Pos.succ hold := RampDownInterval ]}
                           (Pos.succ (Pos.succ hold)) (sent s ++ [SCRIPT PM_MODE])))).
  { induction k as [|k IH]; intros Hk.
    - exact R3.
    - unfold rampDownTicks. rewrite Nat.iter_succ.
      eapply reach_step; [apply IH; lia|].
      apply (step_rampDown (Pos.succ hold)).
      match goal with |- context [Nat.iter k rampDownTick ?x] =>
        fold (rampDownTicks k x) end.
      rewrite rampDownTicks_early by lia.
      cbn. apply lookup_singleton_eq. }
  unfold s'. rewrite E2, holdTimeoutFired_shape.
  split; [apply R4; lia|].
  rewrite rampDownTicks_twenty. cbn. rewrite <- app_assoc. repeat split.
Qed.

Lemma demo_cycle_returns_to_idle_witness :
  pm (rampDownTicks 20
        (holdTimeoutFired 2
           (holdEffect (Finite 0) (rampUpTicks 10 (startPMMode initial))))) = idle /\
  sent (rampDownTicks 20
          (holdTimeoutFired 2
             (holdEffect (Finite 0) (rampUpTicks 10 (startPMMode initial)))))
    = [SCRIPT PM_MODE; SCRIPT STOP].
Proof.
  destruct (demo_cycle_returns_to_idle initial reach_initial)
    as (_ & Hp & _ & _ & _ & _ & Hs).
  split; [exact Hp | exact Hs].
Defined.

(** X6: the hold starts at most once per cycle, and only while the script
    waits for the flood with a finite ETA of 0 or less: any run of the hold
    effect that changes the state leaves it holding with rain 100 and the
    hold flag set, and a further run of the effect, whatever the ETA,
    changes nothing. *)
Theorem hold_starts_once (e e' : number) (s : Demo) :
  holdEffect e s <> s ->
  (pm s = waitingFlood /\ didStartHoldRef s = false /\
   exists r, e = Finite r /\ (r <= 0)%R) /\
  pm (holdEffect e s) = holding /\
  rain (holdEffect e s) = 100%Z /\
  didStartHoldRef (holdEffect e s) = true /\
  holdTimeoutRef (holdEffect e s) = Some (nextTimer s) /\
  timers (holdEffect e s) !! nextTimer s = Some HoldTimeout /\
  holdEffect e' (holdEffect e s) = holdEffect e s.
Proof.
  intros Hne.
  set (s1 := clearHold (setRain 100 (setPm holding (setDidStartHoldRef true s)))).
  assert (C : holdEffect e s = s \/
              (pm s = waitingFlood /\ didStartHoldRef s = false /\
               (exists r, e = Finite r /\ (r <= 0)%R) /\
               holdEffect e s
               = setHoldTimeoutRef (Some (nextTimer s1)) (snd (startTimer HoldTimeout s1)))).
  { unfold holdEffect. destruct (pm s) eqn:Ep; auto.
    destruct e as [r|]; auto.
    destruct (Rlt_dec 0 r) as [Hr|Hr]; auto.
    destruct (didStartHoldRef s) eqn:Ed; auto.
    right. repeat split. exists r. split; [reflexivity | lra]. }
  destruct C as [E|(Ep & Ed & Hex & E)]; [contradiction|].
  assert (Hpm : pm s1 = holding)
    by (unfold s1, clearHold; cbn; destruct (holdTimeoutRef s); reflexivity).
  assert (Hrain : rain s1 = 100%Z)
    by (unfold s1, clearHold; cbn; destruct (holdTimeoutRef s); reflexivity).
  assert (Hdid : didStartHoldRef s1 = true)
    by (unfold s1, clearHold; cbn; destruct (holdTimeoutRef s); reflexivity).
  assert (Hn : nextTimer s1 = nextTimer s)
    by (unfold s1, clearHold; cbn; destruct (holdTimeoutRef s); reflexivity).
  split; [auto|]. rewrite E. clearbody s1. cbn.
  rewrite Hpm, Hrain, Hdid, Hn.
  repeat split. apply lookup_insert_eq.
Qed.

Lemma hold_starts_once_witness :
  pm (holdEffect (Finite 0) (rampUpTicks 10 (startPMMode initial))) = holding /\
  holdEffect POSITIVE_INFINITY (holdEffect (Finite 0) (rampUpTicks 10 (startPMMode initial)))
    = holdEffect (Finite 0) (rampUpTicks 10 (startPMMode initial)).
Proof.
  assert (Hne : holdEffect (Finite 0) (rampUpTicks 10 (startPMMode initial))
                <> rampUpTicks 10 (startPMMode initial)).
  { rewrite (startPMMode_shape initial) by (apply reachable_owned, reach_initial).
    rewrite rampUpTicks_ten, holdEffect_fires by lra. discriminate. }
  destruct (hold_starts_once (Finite 0) POSITIVE_INFINITY _ Hne)
    as (_ & Hp & _ & _ & _ & _ & Hi).
  split; [exact Hp | exact Hi].
Defined.

End DemoCycle.

(** ** The prediction banner of the manual surface *)

Section Banner.
Import Control.
Local Open Scope R_scope.

Lemma clamp_unit (v : R) : 0 <= clamp v 0 1 <= 1.
Proof.
  unfold clamp. split.
  - apply Rmin_glb; [lra | apply Rmax_l].
  - apply Rmin_l.
Qed.

Lemma Math_round_range (x : R) (lo hi : Z) :
  IZR lo <= x <= IZR hi -> (lo <= Math_round x <= hi)%Z.
Proof.
  intros [Hlo Hhi]. unfold Math_round. split.
  - apply Zfloor_lub. lra.
  - pose proof (Zfloor_bound (x + 1 / 2)) as [Hb _].
    assert (Hlt : IZR (Zfloor (x + 1 / 2)) < IZR (hi + 1))
      by (rewrite plus_IZR; lra).
    apply lt_IZR in Hlt. lia.
Qed.

(** X7: while rain is within 0..100, the likelihood shown by the manual
    surface is a whole number between 0 and 100, whatever the level, the
    flow and the ETA are; and more rain never lowers it. *)
Theorem likelihood_in_range (etaSec : number) (level flow : R) (rain rain' : Z) :
  (0 <= rain <= 100)%Z ->
  (0 <= likelihood etaSec level flow rain <= 100)%Z /\
  ((rain <= rain')%Z ->
   (likelihood etaSec level flow rain <= likelihood etaSec level flow rain')%Z).
Proof.
  intros [Hr0 Hr1]. unfold likelihood.
  set (t := match etaSec with Finite e => clamp (1 - e / 60) 0 1 | POSITIVE_INFINITY => 0 end).
  assert (Ht : 0 <= t <= 1)
    by (unfold t; destruct etaSec; [apply clamp_unit | lra]).
  pose proof (clamp_unit (level / FLOOD_LEVEL)) as Hl.
  pose proof (clamp_unit ((flow - BASE_flow) / GAIN_flowRise)) as Hf.
  apply IZR_le in Hr0, Hr1.
  split.
  - apply Math_round_range. cbn [IZR]. lra.
  - intros Hle. apply IZR_le in Hle. unfold Math_round. apply Zfloor_le. lra.
Qed.

Lemma likelihood_in_range_witness :
  (0 <= likelihood POSITIVE_INFINITY (35 / 100) (6 / 10) 50 <= 100)%Z.
Proof.
  apply (likelihood_in_range POSITIVE_INFINITY (35 / 100) (6 / 10) 50 50). lia.
Defined.

Lemma severity_status (level : R) (rain : Z) :
  ((3 <= severity (status level rain))%nat <-> (FLOOD_LEVEL <= level \/ (90 <= rain)%Z)) /\
  ((2 <= severity (status level rain))%nat <-> (85 / 100 <= level \/ (75 <= rain)%Z)) /\
  ((1 <= severity (status level rain))%nat <-> (70 / 100 <= level \/ (50 <= rain)%Z)).
Proof.
  unfold status, Rgeb, FLOOD_LEVEL.
  destruct (Rle_dec 1 level), (Z.leb_spec 90 rain),
           (Rle_dec (85 / 100) level), (Z.leb_spec 75 rain),
           (Rle_dec (70 / 100) level), (Z.leb_spec 50 rain);
    cbn; repeat split; intros; try lia; try tauto; try (exfalso; lra);
    try (exfalso; lia);
    repeat match goal with H : _ \/ _ |- _ => destruct H end;
    try lia; try (exfalso; lra).
Qed.

(** X8: the status of the manual surface escalates with the river level
    and with the rain: raising either never lowers it.  It is DANGER
    exactly from the flood level or rain 90, and NORMAL exactly below level
    0.70 with rain below 50. *)
Theorem status_escalates (level level' : R) (rain rain' : Z) :
  level <= level' -> (rain <= rain')%Z ->
  (severity (status level rain) <= severity (status level' rain'))%nat /\
  (status level rain = "DANGER"%string <-> (FLOOD_LEVEL <= level \/ (90 <= rain)%Z)) /\
  (status level rain = "NORMAL"%string <-> (level < 70 / 100 /\ (rain < 50)%Z)).
Proof.
  intros Hl Hr.
  destruct (severity_status level rain) as (A3 & A2 & A1).
  destruct (severity_status level' rain') as (B3 & B2 & B1).
  split; [|split].
  - assert (S3 : (3 <= severity (status level rain))%nat ->
                 (3 <= severity (status level' rain'))%nat)
      by (intros H; apply B3; apply A3 in H; destruct H; [left; lra | right; lia]).
    assert (S2 : (2 <= severity (status level rain))%nat ->
                 (2 <= severity (status level' rain'))%nat)
      by (intros H; apply B2; apply A2 in H; destruct H; [left; lra | right; lia]).
    assert (S1 : (1 <= severity (status level rain))%nat ->
                 (1 <= severity (status level' rain'))%nat)
      by (intros H; apply B1; apply A1 in H; destruct H; [left; lra | right; lia]).
    assert (Hmax : (severity (status level rain) <= 3)%nat).
    { unfold status.
      repeat match goal with |- context [if ?c then _ else _] => destruct c end;
        cbn; lia. }
    lia.
  - apply status_by_level_and_rain.
  - clear. unfold status, Rgeb, FLOOD_LEVEL.
    destruct (Rle_dec 1 level), (Z.leb_spec 90 rain),
             (Rle_dec (85 / 100) level), (Z.leb_spec 75 rain),
             (Rle_dec (70 / 100) level), (Z.leb_spec 50 rain);
      cbn; split; intros Hx; try discriminate Hx; try reflexivity;
      try (split; [lra | lia]); exfalso; destruct Hx; first [lra | lia].
Qed.

Lemma status_escalates_witness :
  (severity (status (35 / 100) 40) <= severity (status (35 / 100) 80))%nat.
Proof.
  apply (status_escalates (35 / 100) (35 / 100) 40 80); [lra | lia].
Defined.

End Banner.

(** ** From the rain slider to the video displays *)

Section RainToDisplays.
Import Control.

Lemma list_ascii_of_string_app (a b : string) :
  list_ascii_of_string (a ++ b) = list_ascii_of_string a ++ list_ascii_of_string b.
Proof.
  induction a as [|c a IH]; [reflexivity|].
  change (c :: list_ascii_of_string (a ++ b)
          = c :: (list_ascii_of_string a ++ list_ascii_of_string b)).
  f_equal. exact IH.
Qed.

Lemma isPrefix_app (a b : list Ascii.ascii) : Displays.isPrefix a (a ++ b) = true.
Proof.
  induction a as [|c a IH]; cbn; [reflexivity|].
  now rewrite Ascii.eqb_refl, IH.
Qed.

Lemma endsWith_resolved (origin target : string) :
  Displays.endsWith (origin ++ target) target = true.
Proof.
  unfold Displays.endsWith. rewrite list_ascii_of_string_app, rev_app_distr.
  apply isPrefix_app.
Qed.

Lemma endsWith_other (origin : string) :
  Displays.endsWith (origin ++ Displays.SUNNY) Displays.RAIN = false /\
  Displays.endsWith (origin ++ Displays.RAIN) Displays.SUNNY = false /\
  Displays.endsWith (origin ++ Displays.NORMAL) Displays.FLOOD = false /\
  Displays.endsWith (origin ++ Displays.FLOOD) Displays.NORMAL = false.
Proof.
  unfold Displays.endsWith. rewrite !list_ascii_of_string_app, !rev_app_distr.
  repeat split; reflexivity.
Qed.

Lemma rainEffect_state (r : Z) (b : Broadcast) :
  wasRainingRef (rainEffect r b) = (RAIN_THRESHOLD <=? r)%Z.
Proof.
  unfold rainEffect.
  destruct (RAIN_THRESHOLD <=? r)%Z, (wasRainingRef b); reflexivity.
Qed.

Lemma rainEffect_outbox (r : Z) (b : Broadcast) :
  outbox (rainEffect r b)
  = outbox b ++ SET_RAIN_LEVEL r ::
      (if Bool.eqb (RAIN_THRESHOLD <=? r)%Z (wasRainingRef b) then []
       else [TRIGGER_STATE (if (RAIN_THRESHOLD <=? r)%Z then RAIN else NORMAL)]).
Proof.
  unfold rainEffect.
  destruct (Bool.eqb (RAIN_THRESHOLD <=? r)%Z (wasRainingRef b)); cbn;
    [reflexivity | now rewrite <- app_assoc].
Qed.

Section Page.
Variables origin calm wet : string.
Hypothesis calm_not_wet : Displays.endsWith (origin ++ calm) wet = false.
Hypothesis wet_not_calm : Displays.endsWith (origin ++ wet) calm = false.

Lemma deliver_app (out1 out2 : list FloodAction) (x : Displays.Display) :
  Displays.deliver origin calm wet (out1 ++ out2) x
  = Displays.deliver origin calm wet out2 (Displays.deliver origin calm wet out1 x).
Proof. unfold Displays.deliver. apply fold_left_app. Qed.

Lemma rainEffect_inSync (r : Z) (b : Broadcast) (x : Displays.Display) :
  Displays.inSync origin calm wet b (Displays.deliver origin calm wet (outbox b) x) ->
  Displays.inSync origin calm wet (rainEffect r b) (Displays.deliver origin calm wet (outbox (rainEffect r b)) x).
Proof.
  rewrite rainEffect_outbox, deliver_app. unfold Displays.inSync.
  rewrite rainEffect_state.
  generalize (Displays.deliver origin calm wet (outbox b) x). intros y [Hs Hv].
  pose proof calm_not_wet as C1. pose proof wet_not_calm as C2.
  unfold Displays.endsWith in C1, C2.
  destruct (RAIN_THRESHOLD <=? r)%Z, (wasRainingRef b); cbn;
    rewrite ?Hv, ?C1, ?C2; cbn; auto.
Qed.

Lemma rainEffects_inSync (rains : list Z) (b : Broadcast) (x : Displays.Display) :
  Displays.inSync origin calm wet b (Displays.deliver origin calm wet (outbox b) x) ->
  Displays.inSync origin calm wet (rainEffects rains b)
         (Displays.deliver origin calm wet (outbox (rainEffects rains b)) x).
Proof.
  revert b. induction rains as [|r rains IH]; intros b H; [exact H|].
  unfold rainEffects. cbn [fold_left]. apply IH. now apply rainEffect_inSync.
Qed.

End Page.

Lemma rainEffects_last (rains : list Z) (r : Z) (b : Broadcast) :
  wasRainingRef (rainEffects (rains ++ [r]) b) = (RAIN_THRESHOLD <=? r)%Z.
Proof.
  unfold rainEffects. rewrite fold_left_app. cbn. apply rainEffect_state.
Qed.

(** X9: a display that has been open since the control started shows the
    wet video exactly when the rain level last set is 70 or more: after the
    rain effect has run for every value rain took, and its messages have
    been delivered in order, the sky and the river display both hold state
    RAIN and the rain (flood) video if that last value is at least 70, and
    state NORMAL and the sunny (normal) video if it is below. *)
Theorem displays_follow_rain (origin : string) (rains : list Z) (r : Z) :
  let out := outbox (rainEffects (rains ++ [r]) (mkBroadcast false [])) in
  let sky := Displays.deliver origin Displays.SUNNY Displays.RAIN out
               (Displays.mounted origin Displays.SUNNY) in
  let river := Displays.deliver origin Displays.NORMAL Displays.FLOOD out
                 (Displays.mounted origin Displays.NORMAL) in
  Displays.state sky = (if (70 <=? r)%Z then RAIN else NORMAL) /\
  Displays.src (Displays.video sky)
    = (origin ++ (if (70 <=? r)%Z then Displays.RAIN else Displays.SUNNY))%string /\
  Displays.state river = (if (70 <=? r)%Z then RAIN else NORMAL) /\
  Displays.src (Displays.video river)
    = (origin ++ (if (70 <=? r)%Z then Displays.FLOOD else Displays.NORMAL))%string.
Proof.
  intros out sky river.
  destruct (endsWith_other origin) as (E1 & E2 & E3 & E4).
  pose proof (rainEffects_inSync origin Displays.SUNNY Displays.RAIN E1 E2
                (rains ++ [r]) (mkBroadcast false [])
                (Displays.mounted origin Displays.SUNNY)) as Hsky.
  pose proof (rainEffects_inSync origin Displays.NORMAL Displays.FLOOD E3 E4
                (rains ++ [r]) (mkBroadcast false [])
                (Displays.mounted origin Displays.NORMAL)) as Hriver.
  unfold Displays.inSync in Hsky, Hriver. rewrite rainEffects_last in Hsky, Hriver.
  destruct Hsky as [S1 S2]; [split; reflexivity|].
  destruct Hriver as [R1 R2]; [split; reflexivity|].
  repeat split; assumption.
Qed.

(** X10: the control announces a display state only when rain crosses the
    threshold.  While every value rain takes stays on the side of 70 that
    [wasRainingRef] records, no TRIGGER_STATE is posted; so a display
    mounted during rain of 70 or more receives nothing it reacts to and
    stays in state NORMAL on the calm video. *)
Theorem no_trigger_without_crossing
    (origin calm wet : string) (rains : list Z) (b : Broadcast) :
  (forall r, In r rains -> (RAIN_THRESHOLD <=? r)%Z = wasRainingRef b) ->
  wasRainingRef (rainEffects rains b) = wasRainingRef b /\
  triggers (outbox (rainEffects rains b)) = triggers (outbox b) /\
  (exists news,
      outbox (rainEffects rains b) = outbox b ++ news /\
      Displays.deliver origin calm wet news (Displays.mounted origin calm)
      = Displays.mounted origin calm).
Proof.
  revert b. induction rains as [|r rains IH]; intros b Hall.
  - repeat split. exists []. split; [now rewrite app_nil_r | reflexivity].
  - assert (Hr : (RAIN_THRESHOLD <=? r)%Z = wasRainingRef b)
      by (apply Hall; now left).
    assert (E : rainEffect r b = mkBroadcast (wasRainingRef b)
                                             (outbox b ++ [SET_RAIN_LEVEL r])).
    { unfold rainEffect. rewrite Hr, Bool.eqb_reflx. reflexivity. }
    unfold rainEffects in *. cbn [fold_left]. rewrite E.
    destruct (IH (mkBroadcast (wasRainingRef b) (outbox b ++ [SET_RAIN_LEVEL r])))
      as (Hw & Ht & news & Ho & Hd).
    { intros r' Hin. cbn. apply Hall. now right. }
    cbn in Hw, Ht, Ho. split; [exact Hw|]. split.
    + rewrite Ht. unfold triggers. rewrite flat_map_app. cbn. apply app_nil_r.
    + exists (SET_RAIN_LEVEL r :: news). split.
      * rewrite Ho, <- app_assoc. reflexivity.
      * cbn. exact Hd.
Qed.

Lemma no_trigger_without_crossing_witness :
  triggers (outbox (rainEffects [80; 95; 100]%Z (mkBroadcast true []))) = [].
Proof.
  apply (no_trigger_without_crossing "" Displays.SUNNY Displays.RAIN
           [80; 95; 100]%Z (mkBroadcast true [])).
  intros r [<-|[<-|[<-|[]]]]; reflexivity.
Defined.

(** X11: a display reacts to TRIGGER_STATE only, and handling the same
    action twice is the same as handling it once: the second time the video
    already ends with the wanted file, so nothing is loaded again. *)
Theorem display_message_idempotent
    (origin calm wet : string) (a : FloodAction) (x : Displays.Display) :
  Displays.onmessage origin calm wet a (Displays.onmessage origin calm wet a x)
  = Displays.onmessage origin calm wet a x /\
  ((forall st, a <> TRIGGER_STATE st) -> Displays.onmessage origin calm wet a x = x).
Proof.
  split.
  - destruct a as [v|st|n]; try reflexivity. cbn.
    set (target := match st with RAIN => wet | NORMAL => calm end).
    destruct (Displays.endsWith (Displays.src (Displays.video x)) target) eqn:E; cbn.
    + now rewrite E.
    + now rewrite endsWith_resolved.
  - intros Hn. destruct a as [v|st|n]; try reflexivity. now destruct (Hn st).
Qed.

Lemma display_message_idempotent_witness :
  Displays.onmessage "" Displays.SUNNY Displays.RAIN (SCRIPT PM_MODE)
    (Displays.mounted "" Displays.SUNNY)
  = Displays.mounted "" Displays.SUNNY.
Proof.
  apply (display_message_idempotent "" Displays.SUNNY Displays.RAIN (SCRIPT PM_MODE)).
  intros st. discriminate.
Defined.

End RainToDisplays.

(** ** Ranges kept by the scripted surface *)

Section Ranges.
Import ControlLite.
Local Open Scope Q_scope.

Lemma clamp01_unit (x : Q) : 0 <= clamp01 x /\ clamp01 x <= 1.
Proof.
  unfold clamp01. split.
  - apply Q.le_max_l.
  - apply Q.max_lub; [lra | apply Q.le_min_l].
Qed.

Lemma percent_range (x : Q) : 0 <= clamp01 x * 100 /\ clamp01 x * 100 <= 100.
Proof. destruct (clamp01_unit x). split; lra. Qed.

Lemma rawLikelihood_range (s : Sensors) :
  0 <= rawLikelihood s /\ rawLikelihood s <= 100.
Proof. unfold rawLikelihood. apply percent_range. Qed.

Lemma smooth_between (prev raw : Q) :
  Qmin prev raw <= smooth prev raw /\ smooth prev raw <= Qmax prev raw.
Proof.
  unfold smooth, EMA_ALPHA, MAX_STEP.
  set (ema := prev + 0.25 * (raw - prev)).
  pose proof (Q.le_min_l prev raw) as Hm1. pose proof (Q.le_min_r prev raw) as Hm2.
  pose proof (Q.le_max_l prev raw) as HM1. pose proof (Q.le_max_r prev raw) as HM2.
  revert Hm1 Hm2 HM1 HM2.
  generalize (Qmin prev raw) as m. generalize (Qmax prev raw) as M.
  intros M m Hm1 Hm2 HM1 HM2. split.
  - apply Qle_trans with (Qmin (prev + 4) ema); [|apply Q.le_max_r].
    apply Q.min_glb; unfold ema; lra.
  - apply Q.max_lub; [lra|].
    apply Qle_trans with ema; [apply Q.le_min_r|]. unfold ema; lra.
Qed.

Lemma smooth_range (prev raw : Q) :
  0 <= prev /\ prev <= 100 -> 0 <= raw /\ raw <= 100 ->
  0 <= smooth prev raw /\ smooth prev raw <= 100.
Proof.
  intros [Hp0 Hp1] [Hr0 Hr1]. destruct (smooth_between prev raw) as [Hlo Hhi].
  split.
  - apply Qle_trans with (Qmin prev raw); [|exact Hlo]. apply Q.min_glb; assumption.
  - apply Qle_trans with (Qmax prev raw); [exact Hhi|]. apply Q.max_lub; assumption.
Qed.

Lemma rangeInv_same (w w' : World) :
  rain (st w') = rain (st w) -> lk (st w') = lk (st w) ->
  lkRef (refs w') = lkRef (refs w) -> S_ (st w') = S_ (st w) ->
  rangeInv w -> rangeInv w'.
Proof. unfold rangeInv. intros -> -> -> ->. trivial. Qed.

Lemma clearCountdown_refs_lk (w : World) : lkRef (refs (clearCountdown w)) = lkRef (refs w).
Proof. unfold clearCountdown. destruct (countdownTimerRef (refs w)); reflexivity. Qed.

Lemma runEffect_range (now : Q) (snap : View) (e : Effect) (w : World) :
  rangeInv w -> rangeInv (runEffect now snap e w).
Proof.
  intros H. destruct e; cbn [runEffect].
  - unfold rangeInv in *. unfold smoothEffect. cbn.
    destruct H as (Hr & Hl & Hm & Hs).
    split; [exact Hr|]. split; [|split; [reflexivity | exact Hs]].
    apply smooth_range; [exact Hl | apply rawLikelihood_range].
  - apply (rangeInv_same w); [| | | | exact H]; unfold stageEffect;
      destruct (is_rampDown (phase snap)), (close (S_ snap)); reflexivity.
  - apply (rangeInv_same w); [| | | | exact H]; unfold etaEffect;
      repeat match goal with |- context [if ?c then _ else _] => destruct c end;
      repeat (first [rewrite clearCountdown_st | rewrite clearCountdown_refs_lk
                    | progress cbn]);
      reflexivity.
  - apply (rangeInv_same w); [| | | | exact H]; unfold dangerAlertEffect;
      match goal with |- context [if ?c then _ else _] => destruct c end; reflexivity.
  - apply (rangeInv_same w); [| | | | exact H]; unfold dangerSinceEffect;
      repeat match goal with |- context [if ?c then _ else _] => destruct c end;
      reflexivity.
  - unfold peakHoldEffect.
    repeat match goal with |- context [if ?c then _ else _] => destruct c end;
      try exact H.
    unfold rangeInv in *. cbn. destruct H as (Hr & Hl & Hm & Hs).
    split; [split; lra|]. split; [exact Hl|]. split; [exact Hm | exact Hs].
Qed.

Lemma commit_range (now : Q) (run : Effect -> bool) (w : World) :
  rangeInv w -> rangeInv (commit now run w).
Proof.
  unfold commit. generalize (st w) as snap. intros snap.
  generalize effects as es. intros es. revert w.
  induction es as [|e es IH]; intros w H; cbn [fold_left]; [exact H|].
  apply IH. destruct (run e); [now apply runEffect_range | exact H].
Qed.

Lemma driveRain_range (ph : SimPhase) (prev : Q) :
  0 <= prev /\ prev <= 100 -> 0 <= driveRain ph prev /\ driveRain ph prev <= 100.
Proof.
  intros [H0 H1]. unfold driveRain, RAMP_UP_STEP, RAMP_DOWN_STEP. destruct ph.
  - split; assumption.
  - split; [apply Q.min_glb; lra | apply Q.le_min_l].
  - split; assumption.
  - split; [apply Q.le_max_l | apply Q.max_lub; lra].
Qed.

Lemma sensorTick_range (Math_pow : Q -> Q -> Q) (rnd : Sensors) (w : World) :
  rangeInv w -> rangeInv (sensorTick Math_pow rnd w).
Proof.
  unfold rangeInv, sensorTick. cbn. intros (Hr & Hl & Hm & _).
  split; [now apply driveRain_range|]. split; [exact Hl|]. split; [exact Hm|].
  split; [apply percent_range|]. split; [apply percent_range | apply Q.le_max_l].
Qed.

Lemma reachable_range (Math_pow : Q -> Q -> Q) (w : World) :
  reachable Math_pow w -> rangeInv w.
Proof.
  induction 1 as [|w w' _ IH Hs].
  - unfold rangeInv. cbn. repeat split; try reflexivity; try discriminate.
  - destruct Hs.
    + now apply commit_range.
    + now apply sensorTick_range.
    + exact IH.
    + exact IH.
    + unfold clickStartDemo. destruct (is_idle (phase (st w))); exact IH.
Qed.

(** X12: in every state the scripted surface can reach, the rain
    intensity lies between 0 and 100. *)
Theorem rain_stays_in_range (Math_pow : Q -> Q -> Q) (w : World) :
  reachable Math_pow w -> 0 <= rain (st w) /\ rain (st w) <= 100.
Proof. intros Hr. apply (reachable_range Math_pow w Hr). Qed.

Lemma rain_stays_in_range_witness :
  0 <= rain (st afterRampUpFallback) /\ rain (st afterRampUpFallback) <= 100.
Proof.
  apply (rain_stays_in_range powAtEnds afterRampUpFallback).
  unfold afterRampUpFallback.
  eapply reach_step; [|apply step_commit].
  eapply reach_step; [apply reach_initial | apply step_click].
Defined.

(** X13: the raw score is between 0 and 100 for any sensor readings, and
    in every reachable state the smoothed likelihood is between 0 and 100
    and [lkRef] holds the same value as [lk]. *)
Theorem likelihood_stays_in_range (Math_pow : Q -> Q -> Q) (w : World) :
  reachable Math_pow w ->
  (forall s : Sensors, 0 <= rawLikelihood s /\ rawLikelihood s <= 100) /\
  (0 <= lk (st w) /\ lk (st w) <= 100) /\
  lkRef (refs w) = lk (st w).
Proof.
  intros Hr. split; [exact rawLikelihood_range|].
  destruct (reachable_range Math_pow w Hr) as (_ & Hl & Hm & _).
  split; assumption.
Qed.

Lemma likelihood_stays_in_range_witness :
  lkRef (refs earlyRampDown) = lk (st earlyRampDown).
Proof.
  apply (likelihood_stays_in_range powAtEnds earlyRampDown).
  unfold earlyRampDown, afterRampUpFallback.
  eapply reach_step; [|apply step_commit].
  eapply reach_step; [|apply (step_peakHoldFired powAtEnds 1%positive);
                       vm_compute; reflexivity].
  eapply reach_step;
    [|apply step_tick; intros m; destruct m; split; vm_compute;
      first [discriminate | reflexivity]].
  eapply reach_step; [|apply step_commit].
  eapply reach_step; [apply reach_initial | apply step_click].
Defined.

(** X14: in every reachable state humidity and soil moisture are
    percentages between 0 and 100 and turbidity is not negative, whatever
    the jitter drew. *)
Theorem clamped_sensors_stay_in_range (Math_pow : Q -> Q -> Q) (w : World) :
  reachable Math_pow w ->
  (0 <= humidity (S_ (st w)) /\ humidity (S_ (st w)) <= 100) /\
  (0 <= soil (S_ (st w)) /\ soil (S_ (st w)) <= 100) /\
  0 <= turbidity (S_ (st w)).
Proof.
  intros Hr. destruct (reachable_range Math_pow w Hr) as (_ & _ & _ & Hs).
  exact Hs.
Qed.

Lemma clamped_sensors_stay_in_range_witness :
  0 <= turbidity (S_ (st (sensorTick powAtEnds steadyDraws afterRampUpFallback))).
Proof.
  apply (clamped_sensors_stay_in_range powAtEnds
           (sensorTick powAtEnds steadyDraws afterRampUpFallback)).
  unfold afterRampUpFallback.
  eapply reach_step;
    [|apply step_tick; intros m; destruct m; split; vm_compute;
      first [discriminate | reflexivity]].
  eapply reach_step; [|apply step_commit].
  eapply reach_step; [apply reach_initial | apply step_click].
Defined.

(** X15: smoothing moves the score toward the raw score and never past
    it: the new score lies between the previous and the raw one, and it
    equals the previous one only when the raw score does. *)
Theorem smoothing_never_overshoots (prev raw : Q) :
  (Qmin prev raw <= smooth prev raw /\ smooth prev raw <= Qmax prev raw) /\
  (smooth prev raw == prev <-> raw == prev).
Proof.
  split; [apply smooth_between|].
  unfold smooth, EMA_ALPHA, MAX_STEP.
  set (ema := prev + 0.25 * (raw - prev)).
  destruct (Q.min_spec (prev + 4) ema) as [[H1 E1]|[H1 E1]];
    destruct (Q.max_spec (prev - 4) (Qmin (prev + 4) ema)) as [[H2 E2]|[H2 E2]];
    rewrite E2; rewrite ?E1 in *; unfold ema in *; split; intros; lra.
Qed.

End Ranges.

(** ** The demo phases in order *)

Section PhaseCycle.
Import ControlLite.
Local Open Scope Q_scope.

Lemma fold_effects_inv (P : World -> Prop) (now : Q) (snap : View)
    (run : Effect -> bool) (es : list Effect) (acc : World) :
  (forall e a, P a -> P (runEffect now snap e a)) ->
  P acc ->
  P (fold_left (fun acc e => if run e then runEffect now snap e acc else acc) es acc).
Proof.
  intros Hstep. revert acc.
  induction es as [|e es IH]; intros acc H; cbn [fold_left]; [exact H|].
  apply IH. destruct (run e); [now apply Hstep | exact H].
Qed.

Lemma clearCountdown_peak (w : World) :
  peakHoldTimerRef (refs (clearCountdown w)) = peakHoldTimerRef (refs w) /\
  (forall h k, timers (win (clearCountdown w)) !! h = Some k ->
               timers (win w) !! h = Some k).
Proof.
  unfold clearCountdown. destruct (countdownTimerRef (refs w)) as [c|]; cbn.
  - split; [reflexivity|]. intros h k Hl.
    now apply lookup_delete_Some in Hl as [_ Hl].
  - split; [reflexivity | trivial].
Qed.

(** The ETA effect leaves the phase, the peak-hold ref and every live
    peak-hold timeout alone. *)
Lemma etaEffect_peak (snap : View) (w : World) :
  phase (st (etaEffect snap w)) = phase (st w) /\
  peakHoldTimerRef (refs (etaEffect snap w)) = peakHoldTimerRef (refs w) /\
  (forall h, timers (win (etaEffect snap w)) !! h = Some PeakHoldTimeout ->
             timers (win w) !! h = Some PeakHoldTimeout).
Proof.
  unfold etaEffect.
  destruct (etaNow snap).
  { rewrite clearCountdown_st. destruct (clearCountdown_peak w) as [Hr Ht].
    split; [reflexivity|]. split; [exact Hr|]. intros h. apply Ht. }
  set (w1 := if Qgeb (lkRef (refs w)) COUNTDOWN_START_PCT
                && Qltb (lkRef (refs w)) PEAK_NOW_PCT && is_null (etaSeconds snap)
             then _ else w).
  assert (H1 : phase (st w1) = phase (st w) /\
               peakHoldTimerRef (refs w1) = peakHoldTimerRef (refs w) /\
               (forall h, timers (win w1) !! h = Some PeakHoldTimeout ->
                          timers (win w) !! h = Some PeakHoldTimeout)).
  { unfold w1. match goal with |- context [if ?c then _ else _] => destruct c end.
    - cbn. repeat split. intros h Hl.
      apply lookup_insert_Some in Hl as [[_ Hk]|[_ Hl]]; [discriminate Hk | exact Hl].
    - repeat split; trivial. }
  clearbody w1. destruct H1 as (P1 & R1 & T1).
  set (w2 := if Qgeb (lkRef (refs w)) PEAK_NOW_PCT then _ else w1).
  assert (H2 : phase (st w2) = phase (st w) /\
               peakHoldTimerRef (refs w2) = peakHoldTimerRef (refs w) /\
               (forall h, timers (win w2) !! h = Some PeakHoldTimeout ->
                          timers (win w) !! h = Some PeakHoldTimeout)).
  { unfold w2. match goal with |- context [if ?c then _ else _] => destruct c end.
    - rewrite clearCountdown_st.
      destruct (clearCountdown_peak (setEtaSeconds None (setEtaNow true w1)))
        as [Hr Ht].
      split; [exact P1|]. split; [rewrite Hr; exact R1|].
      intros h Hl. apply T1. exact (Ht h _ Hl).
    - repeat split; trivial. }
  clearbody w2. destruct H2 as (P2 & R2 & T2).
  match goal with |- context [if ?c then _ else _] => destruct c end.
  - rewrite clearCountdown_st.
    destruct (clearCountdown_peak (setEtaSeconds None w2)) as [Hr Ht].
    split; [exact P2|]. split; [rewrite Hr; exact R2|].
    intros h Hl. apply T2. exact (Ht h _ Hl).
  - repeat split; trivial.
Qed.

Lemma runEffect_pendingPeakHold (now : Q) (snap : View) (e : Effect) (w : World) :
  pendingPeakHold snap w -> pendingPeakHold snap (runEffect now snap e w).
Proof.
  intros [Ho Hp]. destruct e; cbn [runEffect].
  - split; [exact Ho | exact Hp].
  - unfold stageEffect.
    destruct (is_rampDown (phase snap)) eqn:Er, (close (S_ snap));
      cbn [andb negb]; try (split; [exact Ho | exact Hp]).
    split; [exact Ho|]. cbn. intros Hne.
    destruct (Hp Hne) as [_ [Hs|Hs]]; rewrite Hs in Er; discriminate Er.
  - destruct (etaEffect_peak snap w) as (P & R & T). split.
    + intros h Hl. rewrite R. apply Ho. now apply T.
    + rewrite R, P. exact Hp.
  - unfold dangerAlertEffect.
    match goal with |- context [if ?c then _ else _] => destruct c end;
      (split; [exact Ho | exact Hp]).
  - unfold dangerSinceEffect.
    repeat match goal with |- context [if ?c then _ else _] => destruct c end;
      (split; [exact Ho | exact Hp]).
  - assert (Keep : pendingPeakHold snap w) by (split; assumption).
    unfold peakHoldEffect.
    destruct (is_rampUp (phase snap)) eqn:Er; cbn [negb orb]; [|exact Keep].
    destruct (peakHoldTimerRef (refs w)) as [t|] eqn:Et; cbn [is_null negb];
      [exact Keep|].
    match goal with |- context [if ?c then _ else _] => destruct c end;
      [|exact Keep].
    split.
    + intros h Hl. cbn in Hl |- *.
      apply lookup_insert_Some in Hl as [[<- _]|[_ Hl]]; [reflexivity|].
      apply Ho in Hl. discriminate Hl.
    + intros _. cbn. split; [reflexivity|]. right.
      destruct (phase snap); first [reflexivity | discriminate Er].
Qed.

Lemma commit_peakHold (now : Q) (run : Effect -> bool) (w : World) :
  peakHoldInv w -> peakHoldInv (commit now run w).
Proof.
  intros [Ho Hp].
  assert (P0 : pendingPeakHold (st w) w).
  { split; [exact Ho|]. intros Hne. pose proof (Hp Hne) as E.
    split; [exact E | left; exact E]. }
  assert (P : pendingPeakHold (st w) (commit now run w)).
  { unfold commit. apply fold_effects_inv; [|exact P0].
    intros e a. apply runEffect_pendingPeakHold. }
  destruct P as [Ho' Hp']. split; [exact Ho'|].
  intros Hne. exact (proj1 (Hp' Hne)).
Qed.

Lemma step_peakHold (Math_pow : Q -> Q -> Q) (w w' : World) :
  step Math_pow w w' -> peakHoldInv w -> peakHoldInv w'.
Proof.
  intros Hs [Ho Hp]. destruct Hs as [now run w|rnd w Hd|h w Hl|h w Hl|now w].
  - now apply commit_peakHold.
  - split; [exact Ho | exact Hp].
  - split; [exact Ho | exact Hp].
  - split; cbn.
    + intros h' Hl'. apply lookup_delete_Some in Hl' as [Hne Hl'].
      apply Ho in Hl, Hl'. congruence.
    + intros Hne. now destruct Hne.
  - unfold clickStartDemo. destruct (is_idle (phase (st w))) eqn:Ei;
      [|split; [exact Ho | exact Hp]].
    split; cbn; [exact Ho|]. intros Hne. apply Hp in Hne.
    rewrite Hne in Ei. discriminate Ei.
Qed.

Lemma reachable_peakHold (Math_pow : Q -> Q -> Q) (w : World) :
  reachable Math_pow w -> peakHoldInv w.
Proof.
  induction 1 as [|w w' _ IH Hs].
  - split; cbn.
    + intros h Hl. rewrite lookup_empty in Hl. discriminate Hl.
    + intros Hne. now destruct Hne.
  - exact (step_peakHold Math_pow w w' Hs IH).
Qed.

Lemma runEffect_pendingPhase (now : Q) (snap : View) (e : Effect) (w : World) :
  pendingPhase snap w -> pendingPhase snap (runEffect now snap e w).
Proof.
  unfold pendingPhase. intros H. destruct e; cbn [runEffect].
  - exact H.
  - rewrite stageEffect_phase.
    destruct (is_rampDown (phase snap)) eqn:Er, (close (S_ snap));
      cbn [andb]; try exact H.
    apply is_rampDown_true in Er. rewrite Er. right. reflexivity.
  - destruct (etaEffect_peak snap w) as (P & _). rewrite P. exact H.
  - unfold dangerAlertEffect.
    match goal with |- context [if ?c then _ else _] => destruct c end; exact H.
  - unfold dangerSinceEffect.
    repeat match goal with |- context [if ?c then _ else _] => destruct c end;
      exact H.
  - unfold peakHoldEffect.
    destruct (is_rampUp (phase snap)) eqn:Er; cbn [negb orb]; [|exact H].
    destruct (negb (is_null (peakHoldTimerRef (refs w)))); [exact H|].
    match goal with |- context [if ?c then _ else _] => destruct c end; [|exact H].
    cbn. right. destruct (phase snap); first [reflexivity | discriminate Er].
Qed.

Lemma commit_phase (now : Q) (run : Effect -> bool) (w : World) :
  phase (st (commit now run w)) = phase (st w) \/
  phase (st (commit now run w)) = nextPhase (phase (st w)).
Proof.
  change (pendingPhase (st w) (commit now run w)).
  assert (P0 : pendingPhase (st w) w) by (left; reflexivity).
  unfold commit. apply fold_effects_inv; [|exact P0].
  intros e a. apply runEffect_pendingPhase.
Qed.

(** X16: the demo phases follow the cycle idle, rampUp, peakHold, rampDown,
    idle.  Any single event in a reachable state (a commit of effects, a
    sensor tick, a timer firing, a click) either keeps the phase or moves
    it to the next phase of the cycle; none is skipped. *)
Theorem phases_follow_the_cycle (Math_pow : Q -> Q -> Q) (w w' : World) :
  reachable Math_pow w -> step Math_pow w w' ->
  phase (st w') = phase (st w) \/ phase (st w') = nextPhase (phase (st w)).
Proof.
  intros Hr Hs. destruct (reachable_peakHold Math_pow w Hr) as [Ho Hp].
  destruct Hs as [now run w|rnd w Hd|h w Hl|h w Hl|now w].
  - apply commit_phase.
  - left. reflexivity.
  - left. reflexivity.
  - right. cbn. apply Ho in Hl.
    rewrite Hp by (rewrite Hl; discriminate). reflexivity.
  - unfold clickStartDemo. destruct (is_idle (phase (st w))) eqn:Ei.
    + right. apply is_idle_true in Ei. rewrite Ei. reflexivity.
    + left. reflexivity.
Qed.

Lemma phases_follow_the_cycle_witness :
  phase (st (peakHoldFired 1 afterRampUpFallback)) = phase (st afterRampUpFallback) \/
  phase (st (peakHoldFired 1 afterRampUpFallback))
    = nextPhase (phase (st afterRampUpFallback)).
Proof.
  apply (phases_follow_the_cycle powAtEnds afterRampUpFallback).
  - unfold afterRampUpFallback.
    eapply reach_step; [|apply step_commit].
    eapply reach_step; [apply reach_initial | apply step_click].
  - apply (step_peakHoldFired powAtEnds 1%positive). vm_compute. reflexivity.
Defined.

(** X17: the peak-hold timeout is never started twice.  In every reachable
    state at most one peak-hold timeout is live, it is the one
    [peakHoldTimerRef] holds, and it is live only during the peak hold. *)
Theorem one_peak_hold_timer (Math_pow : Q -> Q -> Q) (w : World) (h h' : positive) :
  reachable Math_pow w ->
  timers (win w) !! h = Some PeakHoldTimeout ->
  (timers (win w) !! h' = Some PeakHoldTimeout -> h' = h) /\
  peakHoldTimerRef (refs w) = Some h /\
  phase (st w) = peakHold.
Proof.
  intros Hr Hl. destruct (reachable_peakHold Math_pow w Hr) as [Ho Hp].
  pose proof (Ho h Hl) as Eh. split; [|split].
  - intros Hl'. apply Ho in Hl'. congruence.
  - exact Eh.
  - apply Hp. rewrite Eh. discriminate.
Qed.

Lemma one_peak_hold_timer_witness :
  peakHoldTimerRef (refs afterRampUpFallback) = Some 1%positive /\
  phase (st afterRampUpFallback) = peakHold.
Proof.
  apply (one_peak_hold_timer powAtEnds afterRampUpFallback 1 1).
  - unfold afterRampUpFallback.
    eapply reach_step; [|apply step_commit].
    eapply reach_step; [apply reach_initial | apply step_click].
  - vm_compute. reflexivity.
Defined.

End PhaseCycle.

(** ** Easing toward the target *)

Section Easing.
Import ControlLite.
Local Open Scope Q_scope.

Lemma Qabs_bounds (x : Q) : - Qabs x <= x /\ x <= Qabs x.
Proof.
  split; [|apply Qle_Qabs].
  pose proof (Qle_Qabs (- x)) as H. rewrite Qabs_opp in H. lra.
Qed.

Lemma jitter_bound (r a : Q) :
  0 <= r -> r < 1 -> 0 <= a ->
  - (0.0025 * a) <= (r - 0.5) * 0.005 * a /\ (r - 0.5) * 0.005 * a <= 0.0025 * a.
Proof. intros H0 H1 Ha. split; nra. Qed.

Lemma ease_step (cur tgt r : Q) :
  unitDraw r ->
  Qabs (ease cur tgt r - tgt) <= 0.8 * Qabs (cur - tgt) + 0.0025 * (Qabs tgt + 1).
Proof.
  intros [H0 H1]. unfold ease, lerp.
  pose proof (Qabs_nonneg tgt) as Ht.
  destruct (jitter_bound r (Qabs tgt + 1) H0 H1 ltac:(lra)) as [J0 J1].
  destruct (Qabs_bounds (cur - tgt)) as [D0 D1].
  revert J0 J1 D0 D1.
  generalize ((r - 0.5) * 0.005 * (Qabs tgt + 1)) as j.
  generalize (Qabs (cur - tgt)) as dist. generalize (Qabs tgt) as a.
  intros a dist j J0 J1 D0 D1.
  apply Qabs_Qle_condition. split; lra.
Qed.

Lemma Qpower_succ (n : nat) : 0.8 ^ Z.of_nat (S n) == 0.8 * 0.8 ^ Z.of_nat n.
Proof.
  rewrite Nat2Z.inj_succ. unfold Z.succ.
  rewrite Qpower_plus by discriminate. rewrite Qpower_1_r. ring.
Qed.

Lemma easeRun_bound (draws : list Q) (tgt cur : Q) :
  Forall unitDraw draws ->
  Qabs (easeRun draws tgt cur - tgt)
  <= 0.8 ^ Z.of_nat (length draws) * Qabs (cur - tgt)
     + 0.0125 * (Qabs tgt + 1) * (1 - 0.8 ^ Z.of_nat (length draws)).
Proof.
  intros Hd. revert cur. induction Hd as [|r draws Hr _ IH]; intros cur.
  - cbn [easeRun fold_left length]. change (0.8 ^ Z.of_nat 0) with 1. lra.
  - unfold easeRun in *. cbn [fold_left length].
    specialize (IH (ease cur tgt r)). pose proof (ease_step cur tgt r Hr) as Hs.
    rewrite Qpower_succ.
    pose proof (Qpower_0_le 0.8 (Z.of_nat (length draws)) ltac:(lra)) as Hp.
    revert IH Hs Hp.
    generalize (0.8 ^ Z.of_nat (length draws)) as p.
    generalize (Qabs (fold_left (fun v r0 => ease v tgt r0) draws (ease cur tgt r) - tgt)) as out.
    generalize (Qabs (ease cur tgt r - tgt)) as mid.
    generalize (Qabs (cur - tgt)) as dist. generalize (Qabs tgt) as a.
    intros a dist mid out p IH Hs Hp. nra.
Qed.

(** X18: every sensor eases toward its target and the jitter stays small.
    One tick leaves a metric within 0.8 of its previous distance to the
    target plus a jitter of at most 0.0025 (|target| + 1); after [n] ticks
    at a held target the distance is at most 0.8^n of the initial one plus
    0.0125 (|target| + 1).  The river level of the sensor tick is eased in
    this way. *)
Theorem sensors_converge_to_target (draws : list Q) (tgt cur : Q) :
  Forall unitDraw draws ->
  (forall r, unitDraw r ->
     Qabs (ease cur tgt r - tgt) <= 0.8 * Qabs (cur - tgt) + 0.0025 * (Qabs tgt + 1)) /\
  Qabs (easeRun draws tgt cur - tgt)
  <= 0.8 ^ Z.of_nat (length draws) * Qabs (cur - tgt) + 0.0125 * (Qabs tgt + 1) /\
  (forall (Math_pow : Q -> Q -> Q) (rnd : Sensors) (w : World),
      level (S_ (st (sensorTick Math_pow rnd w)))
      = ease (level (S_ (st w))) (level (targets Math_pow (rain (st w)))) (level rnd)).
Proof.
  intros Hd. split; [intros r; apply ease_step|]. split; [|reflexivity].
  pose proof (easeRun_bound draws tgt cur Hd) as H.
  pose proof (Qpower_0_le 0.8 (Z.of_nat (length draws)) ltac:(lra)) as Hp.
  pose proof (Qabs_nonneg tgt) as Ht.
  revert H Hp Ht.
  generalize (0.8 ^ Z.of_nat (length draws)) as p.
  generalize (Qabs (easeRun draws tgt cur - tgt)) as out.
  generalize (Qabs (cur - tgt)) as dist. generalize (Qabs tgt) as a.
  intros a dist out p H Hp Ht. nra.
Qed.

Lemma sensors_converge_to_target_witness :
  Qabs (easeRun [0.5; 0.5] 2 1 - 2)
  <= 0.8 ^ Z.of_nat (length [0.5; 0.5]) * Qabs (1 - 2) + 0.0125 * (Qabs 2 + 1).
Proof.
  apply (sensors_converge_to_target [0.5; 0.5] 2 1).
  repeat constructor; vm_compute; first [discriminate | reflexivity].
Defined.

End Easing.

(** ** The transport, path by path *)

Section TransportPaths.
Import SensorBus.

Lemma fold_onStorage_none (k : string) (ls : list Listener) (tb : Tab) :
  fold_left (fun acc l => onStorage l (mkStorageEvent k None) acc) ls tb = tb.
Proof.
  revert tb. induction ls as [|l ls IH]; intros tb; cbn [fold_left]; [reflexivity|].
  rewrite <- (IH tb) at 2. f_equal. unfold onStorage. cbn.
  destruct (String.eqb k (storageKey (lkind l))); reflexivity.
Qed.

Lemma fold_onMsg (m : Message) (ls : list Listener) (tb : Tab) :
  fold_left (fun acc l => onMsg l m acc) ls tb =
  mkTab (hasChannel tb) (posted tb) (channelListeners tb) (storageListeners tb)
        (calls tb ++ map (fun l => (cb l, data m)) (takingTag (kind m) ls)).
Proof.
  revert tb. induction ls as [|l ls IH]; intros tb; cbn [fold_left].
  - cbn. rewrite app_nil_r. destruct tb; reflexivity.
  - rewrite IH. unfold onMsg, takingTag. cbn [List.filter].
    destruct (String.eqb (kind m) (kindTag (lkind l))); cbn.
    + rewrite <- app_assoc. reflexivity.
    + reflexivity.
Qed.

Lemma fold_onStorage_some (k : string) (v : Stored) (ls : list Listener) (tb : Tab) :
  fold_left (fun acc l => onStorage l (mkStorageEvent k (Some v)) acc) ls tb =
  mkTab (hasChannel tb) (posted tb) (channelListeners tb) (storageListeners tb)
        (calls tb ++ map (fun l => (cb l, sdata v)) (takingKey k ls)).
Proof.
  revert tb. induction ls as [|l ls IH]; intros tb; cbn [fold_left].
  - cbn. rewrite app_nil_r. destruct tb; reflexivity.
  - rewrite IH. unfold onStorage, takingKey. cbn [List.filter key newValue].
    destruct (String.eqb k (storageKey (lkind l))); cbn.
    + rewrite <- app_assoc. reflexivity.
    + reflexivity.
Qed.

(** X19: publishing never calls back into the publishing tab: the storage
    event it raises itself carries no new value, so the tab's call log and
    its listeners stay as they were.  What changes is the posted list, by
    exactly the tagged message when the channel exists, and the stored
    record of the published kind when storage works; without a channel
    the tab is unchanged, without storage the store is unchanged, and the
    record of the other kind is never touched. *)
Theorem publish_never_calls_back (k : Kind) (d : Payload) (now : Z)
    (tb : Tab) (ls : Storage) :
  let r := publish k d now tb ls in
  calls (fst r) = calls tb /\
  channelListeners (fst r) = channelListeners tb /\
  storageListeners (fst r) = storageListeners tb /\
  posted (fst r) =
    (if hasChannel tb then posted tb ++ [mkMessage (kindTag k) d] else posted tb) /\
  (hasChannel tb = false -> fst r = tb) /\
  (available ls = false -> snd r = ls) /\
  (available ls = true -> items (snd r) !! storageKey k = Some (mkStored now d)) /\
  (forall k', k' <> k -> items (snd r) !! storageKey k' = items ls !! storageKey k').
Proof.
  cbv zeta. unfold publish, setItem, dispatchStorage.
  destruct (available ls) eqn:Ha; cbn [fst snd];
    rewrite ?fold_onStorage_none; unfold postMessage;
    destruct (hasChannel tb) eqn:Hc; cbn;
    (split; [reflexivity|]); (split; [reflexivity|]); (split; [reflexivity|]);
    (split; [reflexivity|]); (split; [congruence|]); (split; [congruence|]);
    (split; [intros Hx; try discriminate Hx; apply lookup_insert_eq|]).
  all: intros k' Hk; try reflexivity.
  all: apply lookup_insert_ne; intros E; apply Hk;
    destruct k, k'; cbn in E; congruence.
Qed.

Lemma kindTag_eqb (k k' : Kind) :
  String.eqb (kindTag k) (kindTag k') = Kind_eqb k' k.
Proof. destruct k, k'; reflexivity. Qed.

Lemma storageKey_eqb (k k' : Kind) :
  String.eqb (storageKey k) (storageKey k') = Kind_eqb k' k.
Proof. destruct k, k'; reflexivity. Qed.

Lemma heard_of_handed (c : nat) (k : Kind) (x : Payload)
    (P : Listener -> bool) (ls : list Listener) :
  (forall l, P l = Kind_eqb (lkind l) k) ->
  map snd (List.filter (fun y => Nat.eqb (fst y) c)
             (map (fun l => (cb l, x)) (List.filter P ls))) =
  repeat x (registrations c k ls).
Proof.
  intros HP. unfold registrations.
  induction ls as [|l ls IH]; [reflexivity|].
  cbn [List.filter]. rewrite HP.
  destruct (Kind_eqb (lkind l) k); cbn [map List.filter fst].
  - destruct (Nat.eqb (cb l) c); cbn; [f_equal|]; exact IH.
  - rewrite andb_false_r. exact IH.
Qed.

Lemma heard_app (c : nat) (tb : Tab) (extra : list (nat * Payload)) :
  heard c (mkTab (hasChannel tb) (posted tb) (channelListeners tb)
                 (storageListeners tb) (calls tb ++ extra)) =
  heard c tb ++ map snd (List.filter (fun y => Nat.eqb (fst y) c) extra).
Proof. unfold heard. cbn. rewrite List.filter_app, map_app. reflexivity. Qed.

Lemma heard_dispatchMessage (c : nat) (k : Kind) (x : Payload) (tb : Tab) :
  heard c (dispatchMessage (mkMessage (kindTag k) x) tb) =
  heard c tb ++ repeat x (registrations c k (channelListeners tb)).
Proof.
  unfold dispatchMessage. rewrite fold_onMsg, heard_app. f_equal.
  apply heard_of_handed. intros l. apply kindTag_eqb.
Qed.

Lemma heard_dispatchStorage (c : nat) (k : Kind) (v : Stored) (tb : Tab) :
  heard c (dispatchStorage (mkStorageEvent (storageKey k) (Some v)) tb) =
  heard c tb ++ repeat (sdata v) (registrations c k (storageListeners tb)).
Proof.
  unfold dispatchStorage. rewrite fold_onStorage_some, heard_app. f_equal.
  apply heard_of_handed. intros l. apply storageKey_eqb.
Qed.


Lemma Listener_eqb_refl (l : Listener) : Listener_eqb l l = true.
Proof.
  unfold Listener_eqb. rewrite Nat.eqb_refl. destruct (lkind l); reflexivity.
Qed.

Lemma removeLast_last (l : Listener) (ls : list Listener) :
  removeLast l (ls ++ [l]) = ls.
Proof.
  unfold removeLast. rewrite rev_app_distr. cbn [rev app removeFirst].
  rewrite Listener_eqb_refl. apply rev_involutive.
Qed.

(** X20: a message from another tab is handed to a callback once for each
    of its channel registrations of the message's kind, each time with the
    message's payload, and to no registration of the other kind; a storage
    event with a value does the same over the storage registrations; a
    storage event without a value is handed to nobody. *)
Theorem delivery_by_kind (c : nat) (k : Kind) (x : Payload) (v : Stored) (tb : Tab) :
  heard c (dispatchMessage (mkMessage (kindTag k) x) tb) =
    heard c tb ++ repeat x (registrations c k (channelListeners tb)) /\
  heard c (dispatchStorage (mkStorageEvent (storageKey k) (Some v)) tb) =
    heard c tb ++ repeat (sdata v) (registrations c k (storageListeners tb)) /\
  dispatchStorage (mkStorageEvent (storageKey k) None) tb = tb.
Proof.
  split; [apply heard_dispatchMessage|].
  split; [apply heard_dispatchStorage|].
  apply fold_onStorage_none.
Qed.

(** X21: a channel message whose tag is neither "river" nor "sky", and a
    storage event for any key other than the two mirrored ones, leave the
    tab untouched: no callback runs. *)
Theorem foreign_traffic_ignored (m : Message) (e : StorageEvent) (tb : Tab)
    (Htag : forall k, kind m <> kindTag k)
    (Hkey : forall k, key e <> storageKey k) :
  dispatchMessage m tb = tb /\ dispatchStorage e tb = tb.
Proof.
  split.
  - unfold dispatchMessage. rewrite fold_onMsg.
    assert (E : takingTag (kind m) (channelListeners tb) = []).
    { unfold takingTag. induction (channelListeners tb) as [|l ls IH]; [reflexivity|].
      cbn [List.filter].
      destruct (String.eqb_spec (kind m) (kindTag (lkind l))) as [E|_];
        [destruct (Htag _ E) | exact IH]. }
    rewrite E. cbn. rewrite app_nil_r. destruct tb; reflexivity.
  - unfold dispatchStorage.
    assert (G : forall ls acc,
               fold_left (fun acc l => onStorage l e acc) ls acc = acc).
    { induction ls as [|l ls IH]; intros acc; [reflexivity|].
      cbn [fold_left]. rewrite IH. unfold onStorage.
      destruct (String.eqb_spec (key e) (storageKey (lkind l))) as [E|_];
        [destruct (Hkey _ E) | reflexivity]. }
    apply G.
Qed.

Lemma foreign_traffic_ignored_witness :
  let m := mkMessage "flood" (SkyPayload (mkSkyData 40 120 None)) in
  let e := mkStorageEvent "theme" None in
  let tb := mkTab true [] [mkListener 0 sky] [mkListener 0 sky] [] in
  dispatchMessage m tb = tb /\ dispatchStorage e tb = tb.
Proof.
  cbv zeta. apply foreign_traffic_ignored.
  - intros k; destruct k; discriminate.
  - intros k; destruct k; discriminate.
Defined.

(** X22: subscribing and then calling the returned function leaves the
    tab's listeners as they were before the subscription, with or without a
    channel; only a call made for a cached snapshot remains in the log. *)
Theorem unsubscribe_undoes_subscribe (k : Kind) (c : nat) (tb : Tab) (ls : Storage) :
  let tb' := addListener k c tb ls in
  removeListener k c tb' =
  mkTab (hasChannel tb) (posted tb) (channelListeners tb) (storageListeners tb)
        (calls tb').
Proof.
  cbv zeta. unfold removeListener, addListener.
  destruct (hasChannel tb) eqn:Hc;
    destruct (getItem (storageKey k) ls) as [[parsed|]|];
    unfold call;
    cbn [hasChannel posted channelListeners storageListeners calls];
    rewrite ?Hc, ?removeLast_last; reflexivity.
Qed.

(** X23: when storage is unavailable or holds nothing for the kind, the
    subscription calls nobody, and still registers the storage listener and,
    if the channel exists, the channel listener. *)
Theorem subscribe_without_snapshot (k : Kind) (c : nat) (tb : Tab) (ls : Storage)
    (Hnone : available ls = false \/ items ls !! storageKey k = None) :
  let tb' := addListener k c tb ls in
  calls tb' = calls tb /\
  posted tb' = posted tb /\
  storageListeners tb' = storageListeners tb ++ [mkListener c k] /\
  channelListeners tb' =
    (if hasChannel tb then channelListeners tb ++ [mkListener c k]
     else channelListeners tb).
Proof.
  cbv zeta. unfold addListener.
  assert (G : getItem (storageKey k) ls = None \/
              getItem (storageKey k) ls = Some None).
  { unfold getItem. destruct Hnone as [H|H].
    - rewrite H. left; reflexivity.
    - destruct (available ls); [right; rewrite H|left]; reflexivity. }
  destruct G as [G|G]; rewrite G; destruct (hasChannel tb); cbn; repeat split.
Qed.

Lemma subscribe_without_snapshot_witness :
  let tb := mkTab false [] [] [] [] in
  let ls := mkStorage false ∅ in
  let tb' := addListener sky 7 tb ls in
  calls tb' = [] /\ posted tb' = [] /\
  storageListeners tb' = [mkListener 7 sky] /\
  channelListeners tb' = [].
Proof.
  cbv zeta. apply (subscribe_without_snapshot sky 7 (mkTab false [] [] [] [])
                     (mkStorage false ∅)).
  left; reflexivity.
Defined.



End TransportPaths.

(** ** The sky overlay between messages *)

Section OverlayState.
Import SkyOv.
Local Open Scope Q_scope.

Variable StringToNumber : string -> jsnum.

Lemma Qfloor_half (z : Z) : Qfloor (inject_Z z + 0.5) = z.
Proof.
  unfold Qfloor, Qplus, inject_Z. cbn [Qnum Qden].
  change (Z.pos (1 * 10)) with 10%Z.
  replace (z * 10 + 5 * 1)%Z with (5 + z * 10)%Z by lia.
  rewrite Z.div_add by lia. reflexivity.
Qed.

Lemma drift_window (q : Q) :
  (5 <= Qfloor (Qmax 5 (Qmin 70 q) + 0.5) <= 70)%Z.
Proof.
  set (x := Qmax 5 (Qmin 70 q)).
  assert (Lo : 5 <= x) by apply Q.le_max_l.
  assert (Hi : x <= 70).
  { apply Q.max_lub; [lra | apply Q.le_min_l]. }
  clearbody x. split.
  - assert (L : (Qfloor (inject_Z 5) <= Qfloor (x + 0.5))%Z).
    { apply Qfloor_resp_le. change (inject_Z 5) with 5. lra. }
    rewrite Qfloor_Z in L. exact L.
  - assert (L : (Qfloor (x + 0.5) < 71)%Z).
    { rewrite Zlt_Qlt. apply Qle_lt_trans with (x + 0.5); [apply Qfloor_le|].
      change (inject_Z 71) with 71. lra. }
    lia.
Qed.

Lemma normalizeSky_inv (input : option Incoming) (prev : SkyData) :
  overlayInv prev -> overlayInv (normalizeSky StringToNumber input prev).
Proof.
  intros (Hp & He & Hs). unfold overlayInv, normalizeSky.
  cbn [floodLikelihoodPct etaSeconds status].
  split; [|split].
  - destruct (Number StringToNumber (field in_floodLikelihoodPct input)) as [q| | |];
      cbn [Number_isFinite]; try exact Hp.
    rewrite clamp_pct. eexists; split; [reflexivity|lia].
  - destruct (Number StringToNumber (field in_etaSeconds input)) as [q| | |];
      cbn [Number_isFinite]; try exact He.
    rewrite clamp_eta. eexists; split; [reflexivity|lia].
  - destruct (field in_status input); try exact Hs. discriminate.
Qed.

Lemma demoTick_inv (r : Q) (o : Overlay) :
  overlayInv (d o) -> overlayInv (d (demoTick r o)).
Proof.
  intros Inv. unfold demoTick. destruct (hasLiveRef o); [exact Inv|].
  destruct Inv as ((z & Hz & Rz) & He & Hs).
  unfold overlayInv. cbn [d floodLikelihoodPct etaSeconds status].
  split; [|split; assumption].
  rewrite Hz. cbn [jsadd Math_min Math_max Math_round].
  eexists; split; [reflexivity|].
  pose proof (drift_window (inject_Z z + (r - 0.5) * 2)). lia.
Qed.

Lemma overlayReachable_inv (o : Overlay) :
  overlayReachable StringToNumber o -> overlayInv (d o).
Proof.
  induction 1 as [|o o' _ IH Hstep].
  - unfold overlayInv. cbn. repeat split.
    + exists 10%Z. split; [reflexivity|lia].
    + exists 600%Z. split; [reflexivity|lia].
    + discriminate.
  - destruct Hstep as [incoming o|r o _ _].
    + cbn [onIncoming d]. apply normalizeSky_inv, IH.
    + apply demoTick_inv, IH.
Qed.

(** X25: whatever arrives over the bus and however the demo drifts, the
    overlay always holds a whole likelihood within 0..100, a whole ETA of at
    least 0, and some status to show. *)
Theorem overlay_always_presentable (o : Overlay)
    (Hreach : overlayReachable StringToNumber o) :
  (exists z, floodLikelihoodPct (d o) = Num (inject_Z z) /\ (0 <= z <= 100)%Z) /\
  (exists z, etaSeconds (d o) = Num (inject_Z z) /\ (0 <= z)%Z) /\
  (exists s, status (d o) = Some s).
Proof.
  destruct (overlayReachable_inv o Hreach) as (Hp & He & Hs).
  split; [exact Hp|]. split; [exact He|].
  destruct (status (d o)) as [s|]; [exists s; reflexivity | congruence].
Qed.

(** X26: before any live message a demo tick moves the likelihood to a
    whole number within 5..70, whatever it was and whatever is drawn, and
    leaves the ETA, the status and the live flag alone. *)
Theorem demo_drift_window (r q : Q) (o : Overlay)
    (Hdemo : hasLiveRef o = false)
    (Hpct : floodLikelihoodPct (d o) = Num q) :
  let o' := demoTick r o in
  (exists z, floodLikelihoodPct (d o') = Num (inject_Z z) /\ (5 <= z <= 70)%Z) /\
  etaSeconds (d o') = etaSeconds (d o) /\
  status (d o') = status (d o) /\
  hasLiveRef o' = false.
Proof.
  cbv zeta. unfold demoTick. rewrite Hdemo, Hpct.
  cbn [d floodLikelihoodPct etaSeconds status hasLiveRef jsadd Math_min Math_max
       Math_round].
  split; [|repeat split].
  eexists; split; [reflexivity|]. apply drift_window.
Qed.

Lemma live_flag_kept (o o' : Overlay) :
  hasLiveRef o = true -> overlayStep StringToNumber o o' -> hasLiveRef o' = true.
Proof.
  intros Hlive Hstep. destruct Hstep as [incoming o|r o _ _]; [reflexivity|].
  unfold demoTick. rewrite Hlive. exact Hlive.
Qed.

Lemma live_flag_run (o o' : Overlay) :
  rtc (overlayStep StringToNumber) o o' -> hasLiveRef o = true -> hasLiveRef o' = true.
Proof.
  induction 1 as [x|x y z Hxy _ IH]; intros Hlive; [exact Hlive|].
  apply IH. exact (live_flag_kept x y Hlive Hxy).
Qed.

(** X27: a message from the bus ends the demo for good, even one that
    carries nothing usable and whatever the overlay was doing before: the
    message sets the live flag, and in every state the overlay goes through
    afterwards the flag is still set and a demo tick changes nothing. *)
Theorem demo_stops_after_live (incoming : option Incoming) (o o' : Overlay)
    (Hrun : rtc (overlayStep StringToNumber)
                (onIncoming StringToNumber incoming o) o') :
  hasLiveRef (onIncoming StringToNumber incoming o) = true /\
  hasLiveRef o' = true /\
  (forall r, demoTick r o' = o').
Proof.
  assert (L : hasLiveRef o' = true)
    by (apply (live_flag_run _ _ Hrun); reflexivity).
  split; [reflexivity|]. split; [exact L|].
  intros r. unfold demoTick. rewrite L. reflexivity.
Qed.

(** X28: sending the overlay's own snapshot back in is a no-op: the
    sanitiser returns it unchanged, whatever previous snapshot it is given
    to fall back on. *)
Theorem own_snapshot_is_fixed (o : Overlay) (prev : SkyData)
    (Hreach : overlayReachable StringToNumber o) :
  normalizeSky StringToNumber (Some (asIncoming (d o))) prev = d o.
Proof.
  destruct (overlayReachable_inv o Hreach) as ((z & Hz & Rz) & (e & He & Re) & Hs).
  unfold normalizeSky, asIncoming.
  cbn [field in_floodLikelihoodPct in_etaSeconds in_status Number].
  rewrite Hz, He. cbn [Number_isFinite].
  rewrite clamp_pct, clamp_eta, Qfloor_half, Qfloor_Z.
  destruct (d o) as [p t s]. cbn in Hz, He, Hs |- *.
  destruct s as [s|]; [|congruence].
  subst p t. f_equal; f_equal; f_equal; lia.
Qed.

End OverlayState.

Lemma overlay_always_presentable_witness :
  let o := SkyOv.demoTick 0.25 SkyOv.initialOverlay in
  (exists z, SkyOv.floodLikelihoodPct (SkyOv.d o) = SkyOv.Num (inject_Z z) /\
             (0 <= z <= 100)%Z) /\
  (exists z, SkyOv.etaSeconds (SkyOv.d o) = SkyOv.Num (inject_Z z) /\ (0 <= z)%Z) /\
  (exists s, SkyOv.status (SkyOv.d o) = Some s).
Proof.
  cbv zeta. apply (overlay_always_presentable (fun _ => SkyOv.NaN)).
  eapply SkyOv.ov_step; [apply SkyOv.ov_initial|].
  apply SkyOv.ov_demo; [discriminate | reflexivity].
Defined.

Lemma demo_drift_window_witness :
  let o' := SkyOv.demoTick 0.9 SkyOv.initialOverlay in
  (exists z, SkyOv.floodLikelihoodPct (SkyOv.d o') = SkyOv.Num (inject_Z z) /\
             (5 <= z <= 70)%Z) /\
  SkyOv.etaSeconds (SkyOv.d o') = SkyOv.etaSeconds (SkyOv.d SkyOv.initialOverlay) /\
  SkyOv.status (SkyOv.d o') = SkyOv.status (SkyOv.d SkyOv.initialOverlay) /\
  SkyOv.hasLiveRef o' = false.
Proof.
  cbv zeta. apply (demo_drift_window 0.9 10 SkyOv.initialOverlay); reflexivity.
Defined.

Lemma demo_stops_after_live_witness :
  let S := fun _ : string => SkyOv.NaN in
  let o := SkyOv.onIncoming S None SkyOv.initialOverlay in
  let o' := SkyOv.demoTick 0.25 o in
  SkyOv.hasLiveRef SkyOv.initialOverlay = false /\
  SkyOv.hasLiveRef o = true /\
  SkyOv.hasLiveRef o' = true /\
  (forall r, SkyOv.demoTick r o' = o').
Proof.
  cbv zeta. split; [reflexivity|].
  apply (demo_stops_after_live (fun _ => SkyOv.NaN) None SkyOv.initialOverlay).
  eapply rtc_l; [|apply rtc_refl].
  apply SkyOv.ov_demo; [discriminate | reflexivity].
Defined.

Lemma own_snapshot_is_fixed_witness :
  let S := fun _ : string => SkyOv.NaN in
  let o := SkyOv.onIncoming S
             (Some (SkyOv.mkIncoming (SkyOv.JNumber (SkyOv.Num 150)) SkyOv.JNull
                                     (SkyOv.JString "DANGER")))
             SkyOv.initialOverlay in
  SkyOv.normalizeSky S (Some (SkyOv.asIncoming (SkyOv.d o))) SkyOv.initialSky =
  SkyOv.d o.
Proof.
  cbv zeta. apply (own_snapshot_is_fixed (fun _ => SkyOv.NaN)).
  eapply SkyOv.ov_step; [apply SkyOv.ov_initial|]. apply SkyOv.ov_incoming.
Defined.

(** ** The ETA cell of the card *)

Section EtaCell.
Import SkyOv.

(** X29: the card shows a dash exactly when the ETA is not positive, so
    the "Now" text of [formatEta] never reaches it; otherwise it shows
    minutes and seconds that add up to the ETA, with the seconds below 60. *)
Theorem eta_cell_text (sec : Z) :
  match etaCell sec with
  | None => (sec <= 0)%Z
  | Some Now => False
  | Some (MinSec m s) =>
      (0 < sec)%Z /\ (60 * m + s = sec)%Z /\ (0 <= s < 60)%Z /\ (0 <= m)%Z
  end.
Proof.
  unfold etaCell, formatEta.
  destruct (Z.ltb_spec 0 sec) as [Hpos|Hnon]; [|exact Hnon].
  destruct (Z.leb_spec sec 0) as [Hle|_]; [lia|].
  pose proof (Z.div_mod sec 60 ltac:(lia)).
  pose proof (Z.mod_pos_bound sec 60 ltac:(lia)).
  pose proof (Z.div_pos sec 60 ltac:(lia) ltac:(lia)).
  repeat split; lia.
Qed.

End EtaCell.
